(** * now billing: the credit-card subcommand of now-cli

    A shallow embedding of [src/providers/sh/commands/billing.js] and the
    properties of its dispatcher, target resolution and rendering code.

    The command is a straight-line asynchronous script: it talks to the
    billing API client, to two interactive prompts and to the console.
    It is embedded as a computation in a small state-and-exception monad
    [Proc]; the replies of the outside world (API, user, clock) are read
    from a [World], and everything the command does to the outside is
    recorded as an [event] in the log of the [State]. *)

From Stdlib Require Import String Ascii List ZArith Bool Lia DecimalString.
From ExtLib Require Import Structures.Monad Structures.MonadExc.
Import ListNotations.
Import MonadNotation.
Local Open Scope string_scope.
Local Open Scope monad_scope.

(** ** Data model *)

Module Card.
(** A card as returned by [creditCards.ls()].  The two optional address
    fields are [None] when the property is missing. *)
Record t : Type := Build {
  id : string;
  brand : string;
  last4 : string;
  name : string;
  address_line1 : string;
  address_line2 : option string;
  address_city : string;
  address_state : option string;
  address_zip : string;
  address_country : string
}.
End Card.

(** The value [creditCards.ls()] resolves to.  [defaultCardId] is [None]
    when the account has no default card. *)
Record CardCollection : Type := {
  cards : list Card.t;
  defaultCardId : option string
}.

Module Choice.
(** One entry of the [choices] array handed to the list prompt. *)
Record t : Type := Build {
  name : string;
  value : string;
  short : string
}.
End Choice.

Record Team : Type := { slug : option string }.
Record User : Type := { username : option string; email : string }.

(** The [sh] part of the configuration, destructured by [run]. *)
Record Session : Type := {
  currentTeam : option Team;
  user : User
}.

(** Values that the script throws or that a rejected promise carries.  The
    messages of the two built-in errors are those of the engine. *)
Inductive jsError : Type :=
| ApiError (message : string) (userError : bool)
| ReferenceError (message : string)
| TypeError (message : string).

Definition err_message (e : jsError) : string :=
  match e with
  | ApiError m _ => m
  | ReferenceError m => m
  | TypeError m => m
  end.

Definition err_userError (e : jsError) : bool :=
  match e with
  | ApiError _ u => u
  | _ => false
  end.

(** ** JavaScript helpers *)

Definition nl : string := String (ascii_of_nat 10) EmptyString.

(** Truthiness of a value that is a string or [undefined]. *)
Definition truthy (v : option string) : bool :=
  match v with
  | Some s => negb (s =? "")
  | None => false
  end.

(** [a || b] where [a] may be missing and [b] is a string. *)
Definition js_or (a : option string) (b : string) : string :=
  match a with
  | Some s => if s =? "" then b else s
  | None => b
  end.

(** [a && a.slug] for the optional team. *)
Definition team_slug (tm : option Team) : option string :=
  match tm with
  | Some t => slug t
  | None => None
  end.

(** [s.repeat(n)] *)
Fixpoint repeat_str (s : string) (n : nat) : string :=
  match n with
  | O => ""
  | S k => s ++ repeat_str s k
  end.

(** [card.id === defaultCardId] with a string on the left. *)
Definition is_default (cardId : string) (dflt : option string) : bool :=
  match dflt with
  | Some d => cardId =? d
  | None => false
  end.

(** [card => card.id === cardId] *)
Definition id_is (cardId : string) (card : Card.t) : bool :=
  Card.id card =? cardId.

(** ** Collaborators that are not part of this file

    The colouring functions of chalk, the message decorators, the
    indentation helper and the two number formatters only turn strings
    into strings; they are kept abstract. *)
Class Presentation : Type := {
  chalk_bold : string -> string;
  chalk_cyan : string -> string;
  chalk_gray : string -> string;
  chalk_underline : string -> string;
  chalk_yellow : string -> string;
  error : string -> string;
  success : string -> string;
  info : string -> string;
  indent : string -> nat -> string;
  ms : Z -> string;
  plural : string -> nat -> bool -> string;
  err_stack : jsError -> string
}.

(** ** The outside world *)

Inductive reply (A : Type) : Type :=
| Resolved (a : A)
| Rejected (e : jsError).
Arguments Resolved {A} a.
Arguments Rejected {A} e.

(** What the user does at the list prompt. *)
Inductive selection : Type :=
| Abort
| Pick (index : nat).

Record World : Type := {
  (** the reply to the n-th call of [creditCards.ls()], counted from 0 *)
  ls_reply : nat -> reply CardCollection;
  setDefault_reply : string -> reply unit;
  rm_reply : string -> reply unit;
  addBilling_reply : reply unit;
  listInput_answer : selection;
  promptBool_answer : bool;
  (** the value of the n-th [new Date()], in milliseconds *)
  clock : nat -> Z
}.

Inductive event : Type :=
| ConsoleLog (text : string)
| ConsoleError (text : string)
| Help
| Exit (code : Z)
| ApiLs
| ApiSetDefault (cardId : string)
| ApiRm (cardId : string)
| ApiClose
| AddBilling
| ListInput (message : string) (choices : list Choice.t) (abort : string)
| PromptBool (label : string) (trailing : option string).

(** What has happened so far: the events, newest first, and how many
    times the card list and the clock have been asked for. *)
Record State : Type := {
  log : list event;
  ls_calls : nat;
  clock_reads : nat
}.

Definition initial : State :=
  {| log := []; ls_calls := 0; clock_reads := 0 |}.

(** ** The monad of the script *)

Inductive completion (A : Type) : Type :=
| Done (a : A)
| Thrown (e : jsError).
Arguments Done {A} a.
Arguments Thrown {A} e.

Definition Proc (A : Type) : Type := World -> State -> completion A * State.

#[export] Instance Monad_Proc : Monad Proc := {
  ret := fun _ a _ s => (Done a, s);
  bind := fun _ _ c k w s =>
    match c w s with
    | (Done a, s') => k a w s'
    | (Thrown e, s') => (Thrown e, s')
    end
}.

#[export] Instance MonadExc_Proc : MonadExc jsError Proc := {
  raise := fun _ e _ s => (Thrown e, s);
  catch := fun _ c h w s =>
    match c w s with
    | (Done a, s') => (Done a, s')
    | (Thrown e, s') => h e w s'
    end
}.

Definition emit (e : event) : Proc unit :=
  fun _ s =>
    (Done tt, {| log := e :: log s;
                 ls_calls := ls_calls s;
                 clock_reads := clock_reads s |}).

(** The replies of the outside world. *)
Definition world : Proc World := fun w s => (Done w, s).

(** [await p]: a resolved promise yields its value, a rejected one throws. *)
Definition await {A : Type} (r : reply A) : Proc A :=
  match r with
  | Resolved a => ret a
  | Rejected e => raise e
  end.

(** [new Date()] *)
Definition new_Date : Proc Z :=
  fun w s =>
    (Done (clock w (clock_reads s)),
     {| log := log s;
        ls_calls := ls_calls s;
        clock_reads := S (clock_reads s) |}).

Definition console_log (text : string) : Proc unit := emit (ConsoleLog text).
Definition console_error (text : string) : Proc unit := emit (ConsoleError text).

(** [help()] prints the usage text. *)
Definition help : Proc unit := emit Help.

(** Modelled from the spec: util/exit is not under src/.  [exit code]
    makes the process terminate with status [code]; the caller either
    returns the promise it gives back or goes on with the statements that
    follow the call. *)
Definition exit (code : Z) : Proc unit := emit (Exit code).

(** *** The API client, [NowCreditCards] *)

(** Modelled from the spec: util/credit-cards is not under src/.  [ls()]
    is a request that yields the card collection or fails with an error;
    the world decides the reply to each call. *)
Definition creditCards_ls : Proc CardCollection :=
  fun w s =>
    await (ls_reply w (ls_calls s)) w
      {| log := ApiLs :: log s;
         ls_calls := S (ls_calls s);
         clock_reads := clock_reads s |}.

(** Modelled from the spec: util/credit-cards is not under src/.
    [setDefault(cardId)] is a request that succeeds or fails. *)
Definition creditCards_setDefault (cardId : string) : Proc unit :=
  emit (ApiSetDefault cardId) ;;
  w <- world ;;
  await (setDefault_reply w cardId).

(** Modelled from the spec: util/credit-cards is not under src/.
    [rm(cardId)] is a request that succeeds or fails. *)
Definition creditCards_rm (cardId : string) : Proc unit :=
  emit (ApiRm cardId) ;;
  w <- world ;;
  await (rm_reply w cardId).

(** Modelled from the spec: util/credit-cards is not under src/.
    [close()] releases the resources of the client. *)
Definition creditCards_close : Proc unit := emit ApiClose.

(** Modelled from the spec: billing/add is not under src/.  The add-card
    flow is a single step that the world lets succeed or fail. *)
Definition addBilling : Proc unit :=
  emit AddBilling ;;
  w <- world ;;
  await (addBilling_reply w).

(** *** The prompts *)

(** Modelled from the spec: util/input/list is not under src/.  The list
    prompt shows the choices and returns the value of the selected one, or
    [undefined] when the user leaves through the abort entry.  A pick
    outside the list cannot be made and counts as leaving. *)
Definition listInput (message : string) (choices : list Choice.t)
    (abort : string) : Proc (option string) :=
  emit (ListInput message choices abort) ;;
  w <- world ;;
  match listInput_answer w with
  | Abort => ret None
  | Pick i => ret (option_map Choice.value (nth_error choices i))
  end.

(** Modelled from the spec: util/input/prompt-bool is not under src/.  The
    yes/no prompt shows the label and returns the answer as a boolean. *)
Definition promptBool (label : string) (trailing : option string) : Proc bool :=
  emit (PromptBool label trailing) ;;
  w <- world ;;
  ret (promptBool_answer w).

(** ** The command *)

(** How a [case] of the [switch] in [run] is left: [break] goes on to the
    statement after the switch, [return] leaves [run] at once. *)
Inductive flow : Type :=
| Break
| Return.

Section Billing.

Context {P : Presentation}.

(** [(currentTeam && currentTeam.slug) || user.username || user.email] *)
Definition owner (sh : Session) : string :=
  js_or (team_slug (currentTeam sh))
        (js_or (username (user sh)) (email (user sh))).

(** The [_default] variable of both renderers. *)
Definition default_marker (card : Card.t) (c : CardCollection) : string :=
  if is_default (Card.id card) (defaultCardId c)
  then " " ++ chalk_bold "(default)"
  else "".

(** The [number] variable of both renderers. *)
Definition masked_number (card : Card.t) : string :=
  repeat_str (chalk_gray "#### ") 3 ++ Card.last4 card.

(** Builds a [choices] object that can be passed to the list prompt. *)
Definition buildInquirerChoices (c : CardCollection) : list Choice.t :=
  map (fun card =>
         let _default := default_marker card c in
         let id := chalk_cyan ("ID: " ++ Card.id card) ++ _default in
         let number := masked_number card in
         let str := String.concat nl
                      [ id;
                        indent (Card.name card) 2;
                        indent (Card.brand card ++ " " ++ number) 2 ] in
         {| Choice.name := str;
            Choice.value := Card.id card;
            Choice.short := Card.id card |})
      (cards c).

(** The [address] variable of the list handler, statement by statement. *)
Definition ls_address (card : Card.t) : string :=
  let address := Card.address_line1 card in
  let address :=
    if truthy (Card.address_line2 card)
    then address ++ ", " ++ js_or (Card.address_line2 card) "" ++ "."
    else address ++ "." in
  let address := address ++ nl ++ Card.address_city card ++ ", " in
  let address :=
    if truthy (Card.address_state card)
    then address ++ js_or (Card.address_state card) "" ++ ", "
    else address in
  address ++ Card.address_zip card ++ ". " ++ Card.address_country card.

(** The callback mapped over [cards.cards] by the list handler. *)
Definition ls_card_text (c : CardCollection) (card : Card.t) : string :=
  let _default := default_marker card c in
  let id := chalk_gray "-" ++ " " ++ chalk_cyan ("ID: " ++ Card.id card)
            ++ _default in
  let number := masked_number card in
  let address := ls_address card in
  String.concat nl
    [ id;
      indent (Card.name card) 2;
      indent (Card.brand card ++ " " ++ number) 2;
      indent address 2 ].

(** The [text] variable of the list handler. *)
Definition ls_text (c : CardCollection) : string :=
  String.concat (nl ++ nl) (map (ls_card_text c) (cards c)).

(** [try { cards = await creditCards.ls() } catch (err) { ...; return }]:
    [None] stands for the [return] taken in the handler. *)
Definition fetch_cards : Proc (option CardCollection) :=
  catch (c <- creditCards_ls ;; ret (Some c))
        (fun err => console_error (error (err_message err)) ;; ret None).

(** [consoel.log(text)]: no binding called [consoel] exists, so looking
    the identifier up throws before anything is printed. *)
Definition consoel_log (text : string) : Proc unit :=
  raise (ReferenceError "consoel is not defined").

(** [ms(new Date() - start)] *)
Definition elapsed_since (start : Z) : Proc string :=
  t <- new_Date ;;
  ret (ms (t - start)).

(** [chalk.gray(`[${elapsed}]`)] *)
Definition elapsed_tag (elapsed : string) : string :=
  chalk_gray ("[" ++ elapsed ++ "]").

(** [case 'ls': case 'list':] *)
Definition case_ls (start : Z) (sh : Session) : Proc flow :=
  r <- fetch_cards ;;
  match r with
  | None => ret Return
  | Some c =>
      let text := ls_text c in
      elapsed <- elapsed_since start ;;
      console_log ("> " ++ plural "card" (length (cards c)) true
                   ++ " found under " ++ chalk_bold (owner sh)
                   ++ " " ++ elapsed_tag elapsed) ;;
      (if text =? "" then ret tt else console_log (nl ++ text ++ nl)) ;;
      ret Break
  end.

(** The block guarded by [if (cardId)] in the set-default case. *)
Definition confirm_set_default (cardId : string) (c : CardCollection)
    : Proc flow :=
  let label := "Are you sure that you to set this card as the default?" in
  confirmation <- promptBool label (Some nl) ;;
  if negb confirmation then
    consoel_log (info "Aborted") ;;
    ret Break
  else
    start <- new_Date ;;
    creditCards_setDefault cardId ;;
    let card := find (id_is cardId) (cards c) in
    elapsed <- elapsed_since start ;;
    match card with
    | None => raise (TypeError "Cannot read property 'brand' of undefined")
    | Some card =>
        console_log
          (success (Card.brand card ++ " ending in " ++ Card.last4 card
                    ++ " is now the default " ++ elapsed_tag elapsed)) ;;
        ret Break
    end.

(** [case 'set-default':] *)
Definition case_set_default (args : list string) (sh : Session) : Proc flow :=
  if (1 <? length args)%nat then
    console_error (error "Invalid number of arguments") ;;
    exit 1 ;;
    ret Return
  else
    start <- new_Date ;;
    r <- fetch_cards ;;
    match r with
    | None => ret Return
    | Some c =>
        if (length (cards c) =? 0)%nat then
          console_error (error "You have no credit cards to choose from") ;;
          exit 0 ;;
          ret Return
        else
          cardId <-
            match nth_error args 0 with
            | Some a => ret (Some a)
            | None =>
                elapsed <- elapsed_since start ;;
                let message :=
                  "Selecting a new default payment card for "
                  ++ chalk_bold (owner sh) ++ " " ++ elapsed_tag elapsed in
                let choices := buildInquirerChoices c in
                listInput message choices "end"
            end ;;
          if truthy cardId then
            confirm_set_default (js_or cardId "") c
          else
            console_log "No changes made" ;;
            ret Break
    end.

(** The block guarded by [if (cardId)] in the rm case. *)
Definition confirm_rm (cardId : string) (c : CardCollection) (sh : Session)
    : Proc flow :=
  let label := "Are you sure that you want to remove this card?" in
  confirmation <- promptBool label None ;;
  if negb confirmation then
    console_log "Aborted" ;;
    ret Break
  else
    start <- new_Date ;;
    creditCards_rm cardId ;;
    let deletedCard := find (id_is cardId) (cards c) in
    let remainingCards :=
      filter (fun card => negb (id_is cardId card)) (cards c) in
    match deletedCard with
    | None => raise (TypeError "Cannot read property 'brand' of undefined")
    | Some deletedCard =>
        let text :=
          Card.brand deletedCard ++ " ending in "
          ++ Card.last4 deletedCard ++ " was deleted" in
        text <-
          (if is_default cardId (defaultCardId c) then
             if (length remainingCards =? 0)%nat then
               (* The user deleted the last card in their account *)
               ret (text ++ nl ++ chalk_yellow "Warning!"
                    ++ " You have no default card")
             else
               (* We can't guess the current default card *)
               c' <- creditCards_ls ;;
               let newDefaultCard :=
                 find (fun card =>
                         is_default (Card.id card) (defaultCardId c'))
                      (cards c') in
               match newDefaultCard with
               | None =>
                   raise (TypeError
                            "Cannot read property 'brand' of undefined")
               | Some newDefaultCard =>
                   ret (text ++ nl ++ Card.brand newDefaultCard
                        ++ " ending in " ++ Card.last4 newDefaultCard
                        ++ " in now default for " ++ chalk_bold (owner sh))
               end
           else ret text) ;;
        elapsed <- elapsed_since start ;;
        let text := text ++ " " ++ elapsed_tag elapsed in
        console_log (success text) ;;
        ret Break
    end.

(** [case 'rm': case 'remove':] *)
Definition case_rm (args : list string) (sh : Session) : Proc flow :=
  if (1 <? length args)%nat then
    console_error (error "Invalid number of arguments") ;;
    exit 1 ;;
    ret Return
  else
    start <- new_Date ;;
    r <- fetch_cards ;;
    match r with
    | None => ret Return
    | Some c =>
        if (length (cards c) =? 0)%nat then
          console_error
            (error ("You have no credit cards to choose from to delete under "
                    ++ chalk_bold (owner sh))) ;;
          exit 0 ;;
          ret Return
        else
          cardId <-
            match nth_error args 0 with
            | Some a => ret (Some a)
            | None =>
                elapsed <- elapsed_since start ;;
                let message :=
                  "Selecting a card to " ++ chalk_underline "remove"
                  ++ " under " ++ chalk_bold (owner sh)
                  ++ " " ++ elapsed_tag elapsed in
                let choices := buildInquirerChoices c in
                listInput message choices "start"
            end ;;
          if truthy cardId then
            confirm_rm (js_or cardId "") c sh
          else
            console_log "No changes made" ;;
            ret Break
    end.

(** [case 'add':] *)
Definition case_add : Proc flow :=
  addBilling ;;
  ret Break.

(** [default:] the call of [exit] is neither awaited nor returned, so the
    case falls out of the switch. *)
Definition case_default : Proc flow :=
  console_error
    (error "Please specify a valid subcommand: ls | add | rm | set-default") ;;
  help ;;
  exit 1 ;;
  ret Break.

(** The subcommands that have a [case] of their own. *)
Inductive handler : Type :=
| HList
| HSetDefault
| HRemove
| HAdd.

Definition handler_of (subcommand : string) : option handler :=
  if subcommand =? "ls" then Some HList
  else if subcommand =? "list" then Some HList
  else if subcommand =? "set-default" then Some HSetDefault
  else if subcommand =? "rm" then Some HRemove
  else if subcommand =? "remove" then Some HRemove
  else if subcommand =? "add" then Some HAdd
  else None.

(** The end of [run]: after a [break] the client is closed, after a
    [return] it is not. *)
Definition after_switch (f : flow) : Proc unit :=
  match f with
  | Break => creditCards_close
  | Return => ret tt
  end.

(** [run]: the globals [subcommand] and [argv._] that [main] has set are
    passed in; [args] is [argv._.slice(1)]. *)
Definition run (subcommand : option string) (argv_ : list string)
    (sh : Session) : Proc unit :=
  start <- new_Date ;;
  let args := skipn 1 argv_ in
  f <- match option_map handler_of subcommand with
       | Some (Some HList) => case_ls start sh
       | Some (Some HSetDefault) => case_set_default args sh
       | Some (Some HRemove) => case_rm args sh
       | Some (Some HAdd) => case_add
       | Some None | None => case_default
       end ;;
  after_switch f.

(** [main], from the point where [mri] has parsed the command line:
    [help_flag] is [argv.help] and [argv_] is [argv._] after its first
    entry has been dropped.  The session is taken as found: the lookup of
    the [sh] credential, which comes between the help test and the [try],
    is taken to have succeeded and is not part of this definition. *)
Definition main (help_flag : bool) (argv_ : list string) (sh : Session)
    : Proc unit :=
  let subcommand := nth_error argv_ 0 in
  if help_flag || negb (truthy subcommand) then
    help ;;
    exit 0
  else
    catch (run subcommand argv_ sh)
          (fun err =>
             (if err_userError err
              then console_error (error (err_message err))
              else console_error
                     (error ("Unknown error: " ++ err_stack err))) ;;
             exit 1).

End Billing.

(** ** Running the command and reading its trace *)

Definition exec {A : Type} (p : Proc A) (w : World) : completion A * State :=
  p w initial.

(** The events of a run, oldest first. *)
Definition trace (s : State) : list event := rev (log s).

Definition trace_of {A : Type} (p : Proc A) (w : World) : list event :=
  trace (snd (exec p w)).

Definition outcome_of {A : Type} (p : Proc A) (w : World) : completion A :=
  fst (exec p w).

(** The status the process ends with: the code of the first [exit]. *)
Fixpoint exit_status (t : list event) : option Z :=
  match t with
  | [] => None
  | Exit code :: _ => Some code
  | _ :: rest => exit_status rest
  end.

Definition is_mutation (e : event) : bool :=
  match e with
  | ApiSetDefault _ | ApiRm _ => true
  | _ => false
  end.

Definition is_request (e : event) : bool :=
  match e with
  | ApiLs | ApiSetDefault _ | ApiRm _ | AddBilling => true
  | _ => false
  end.

Definition is_prompt (e : event) : bool :=
  match e with
  | ListInput _ _ _ | PromptBool _ _ => true
  | _ => false
  end.

Definition is_close (e : event) : bool :=
  match e with
  | ApiClose => true
  | _ => false
  end.

Definition is_ls (e : event) : bool :=
  match e with
  | ApiLs => true
  | _ => false
  end.

Definition is_confirmation (e : event) : bool :=
  match e with
  | PromptBool _ _ => true
  | _ => false
  end.

Definition count (p : event -> bool) (t : list event) : nat :=
  length (filter p t).

(** [contains needle hay]: [needle] occurs somewhere in [hay]. *)
Definition contains (needle hay : string) : bool :=
  match index 0 needle hay with
  | Some _ => true
  | None => false
  end.

(** Some line written to the console mentions [needle]. *)
Definition printed (needle : string) (t : list event) : bool :=
  existsb (fun e =>
             match e with
             | ConsoleLog text | ConsoleError text => contains needle text
             | _ => false
             end) t.

(** Number of line breaks in a text, and the number of lines it spans. *)
Fixpoint newlines (s : string) : nat :=
  match s with
  | EmptyString => 0
  | String ch rest =>
      (if Ascii.eqb ch (ascii_of_nat 10) then 1 else 0) + newlines rest
  end.

Definition line_count (s : string) : nat := S (newlines s).

(** The subcommands that resolve a target card, and all those that the
    dispatcher knows. *)
Definition resolving : list string := ["set-default"; "rm"; "remove"].

Definition known : list string :=
  ["ls"; "list"; "set-default"; "rm"; "remove"; "add"].

(** The mutating request a resolving subcommand ends in, and the reply the
    world gives to it. *)
Definition mutation (sub cardId : string) : event :=
  if sub =? "set-default" then ApiSetDefault cardId else ApiRm cardId.

Definition mutation_reply (w : World) (sub cardId : string) : reply unit :=
  if sub =? "set-default" then setDefault_reply w cardId
  else rm_reply w cardId.

(** ** Vocabulary of the statements *)

Section Vocabulary.

Context {P : Presentation}.

(** The message shown above the list prompt. *)
Definition prompt_message (sub : string) (sh : Session) (elapsed : string)
    : string :=
  if sub =? "set-default"
  then "Selecting a new default payment card for "
       ++ chalk_bold (owner sh) ++ " " ++ elapsed_tag elapsed
  else "Selecting a card to " ++ chalk_underline "remove"
       ++ " under " ++ chalk_bold (owner sh) ++ " " ++ elapsed_tag elapsed.

Definition prompt_abort (sub : string) : string :=
  if sub =? "set-default" then "end" else "start".

Definition no_cards_message (sub : string) (sh : Session) : string :=
  if sub =? "set-default"
  then "You have no credit cards to choose from"
  else "You have no credit cards to choose from to delete under "
       ++ chalk_bold (owner sh).

(** The yes/no question of a resolving subcommand. *)
Definition confirmation (sub : string) : event :=
  if sub =? "set-default"
  then PromptBool "Are you sure that you to set this card as the default?"
                  (Some nl)
  else PromptBool "Are you sure that you want to remove this card?" None.

(** The block that asks for confirmation and acts on it. *)
Definition confirm (sub cardId : string) (c : CardCollection) (sh : Session)
    : Proc flow :=
  if sub =? "set-default" then confirm_set_default cardId c
  else confirm_rm cardId c sh.

(** The card id that the handler arrives at: the argument when there is
    one, else the id of the card picked at the list prompt. *)
Definition resolution (args : list string) (w : World) (c : CardCollection)
    : option string :=
  match nth_error args 0 with
  | Some a => Some a
  | None =>
      match listInput_answer w with
      | Abort => None
      | Pick i => option_map Card.id (nth_error (cards c) i)
      end
  end.

(** The list prompt, shown when there is no argument. *)
Definition resolution_trace (sub : string) (sh : Session)
    (args : list string) (w : World) (c : CardCollection) : list event :=
  match args with
  | [] => [ListInput (prompt_message sub sh (ms (clock w 2 - clock w 1)))
                     (buildInquirerChoices c) (prompt_abort sub)]
  | _ :: _ => []
  end.

(** The state in which the confirmation block is entered. *)
Definition resolved (sub : string) (sh : Session) (args : list string)
    (w : World) (c : CardCollection) : State :=
  {| log := rev (ApiLs :: resolution_trace sub sh args w c);
     ls_calls := 1;
     clock_reads := 2 + length (resolution_trace sub sh args w c) |}.

(** The bracketed time between the clock readings [n] and [n + 1]. *)
Definition elapsed_at (w : World) (n : nat) : string :=
  elapsed_tag (ms (clock w (S n) - clock w n)).

(** The text that reports a deleted card, before anything is added. *)
Definition deleted_text (card : Card.t) : string :=
  Card.brand card ++ " ending in " ++ Card.last4 card ++ " was deleted".

Definition others (cardId : string) (c : CardCollection) : list Card.t :=
  filter (fun card => negb (id_is cardId card)) (cards c).

Definition default_of (c : CardCollection) : option Card.t :=
  find (fun card => is_default (Card.id card) (defaultCardId c)) (cards c).

(** The events of a run up to and including the yes/no question. *)
Definition asked (sub : string) (sh : Session) (args : list string)
    (w : World) (c : CardCollection) : list event :=
  ApiLs :: resolution_trace sub sh args w c ++ [confirmation sub].

(** The two lines of a rendered address. *)
Definition street_line (card : Card.t) : string :=
  match Card.address_line2 card with
  | Some line2 =>
      if line2 =? "" then Card.address_line1 card ++ "."
      else Card.address_line1 card ++ ", " ++ line2 ++ "."
  | None => Card.address_line1 card ++ "."
  end.

Definition locality_line (card : Card.t) : string :=
  Card.address_city card ++ ", "
  ++ match Card.address_state card with
     | Some state => if state =? "" then "" else state ++ ", "
     | None => ""
     end
  ++ Card.address_zip card ++ ". " ++ Card.address_country card.

(** No field of the address holds a line break. *)
Definition single_line_fields (card : Card.t) : Prop :=
  newlines (Card.address_line1 card) = 0
  /\ newlines (js_or (Card.address_line2 card) "") = 0
  /\ newlines (Card.address_city card) = 0
  /\ newlines (js_or (Card.address_state card) "") = 0
  /\ newlines (Card.address_zip card) = 0
  /\ newlines (Card.address_country card) = 0.

End Vocabulary.

(** Indentation of every line of a text by [pad]. *)
Fixpoint pad_lines (pad : string) (s : string) : string :=
  match s with
  | EmptyString => ""
  | String ch rest =>
      if Ascii.eqb ch (ascii_of_nat 10)
      then String ch (pad ++ pad_lines pad rest)
      else String ch (pad_lines pad rest)
  end.

(** A presentation without colours, for running the command on examples. *)
Definition plain : Presentation := {|
  chalk_bold := fun s => s;
  chalk_cyan := fun s => s;
  chalk_gray := fun s => s;
  chalk_underline := fun s => s;
  chalk_yellow := fun s => s;
  error := fun s => "> Error! " ++ s;
  success := fun s => "> Success! " ++ s;
  info := fun s => "> " ++ s;
  indent := fun s n => repeat_str " " n ++ pad_lines (repeat_str " " n) s;
  ms := fun _ => "1ms";
  plural := fun w n _ =>
    NilZero.string_of_uint (Nat.to_uint n) ++ " "
    ++ (if (n =? 1)%nat then w else w ++ "s");
  err_stack := fun e => err_message e
|}.

(** ** Sample accounts *)

Module Sample.

Definition visa : Card.t :=
  Card.Build "a" "Visa" "1111" "Ann Lee"
             "1 Main St" None "Springfield" None "12345" "US".

Definition mastercard : Card.t :=
  Card.Build "b" "MasterCard" "2222" "Bob Ray"
             "2 High St" (Some "Apt 3") "Portland" (Some "OR") "97201" "US".

Definition two_cards : CardCollection :=
  {| cards := [visa; mastercard]; defaultCardId := Some "a" |}.

Definition one_card : CardCollection :=
  {| cards := [visa]; defaultCardId := Some "a" |}.

Definition one_card_no_default : CardCollection :=
  {| cards := [visa]; defaultCardId := None |}.

Definition after_removal : CardCollection :=
  {| cards := [mastercard]; defaultCardId := Some "b" |}.

Definition no_cards : CardCollection :=
  {| cards := []; defaultCardId := None |}.

Definition ann : Session :=
  {| currentTeam := None;
     user := {| username := Some "ann"; email := "ann@example.org" |} |}.

(** A world whose first fetch yields [c] and whose later ones yield
    [c'], with a user who answers the two prompts as given. *)
Definition account (c c' : CardCollection) (pick : selection)
    (confirm : bool) : World :=
  {| ls_reply := fun n => match n with O => Resolved c | _ => Resolved c' end;
     setDefault_reply := fun _ => Resolved tt;
     rm_reply := fun _ => Resolved tt;
     addBilling_reply := Resolved tt;
     listInput_answer := pick;
     promptBool_answer := confirm;
     clock := fun n => Z.of_nat n |}.

(** A world in which the API is unreachable. *)
Definition offline : World :=
  {| ls_reply := fun _ => Rejected (ApiError "Network down" true);
     setDefault_reply := fun _ => Rejected (ApiError "Network down" true);
     rm_reply := fun _ => Rejected (ApiError "Network down" true);
     addBilling_reply := Rejected (ApiError "Network down" true);
     listInput_answer := Abort;
     promptBool_answer := false;
     clock := fun n => Z.of_nat n |}.

Definition after_removal_no_default : CardCollection :=
  {| cards := [mastercard]; defaultCardId := None |}.

(** A card whose id is the empty string. *)
Definition nameless : Card.t :=
  Card.Build "" "Visa" "3333" "Cy Doe"
             "3 Low St" None "Salem" None "97301" "US".

Definition with_nameless : CardCollection :=
  {| cards := [nameless; visa]; defaultCardId := Some "a" |}.

(** A world whose card list can be read but whose mutating requests are
    refused. *)
Definition read_only (c : CardCollection) (pick : selection) : World :=
  {| ls_reply := fun _ => Resolved c;
     setDefault_reply := fun _ => Rejected (ApiError "Card declined" true);
     rm_reply := fun _ => Rejected (ApiError "Card declined" true);
     addBilling_reply := Rejected (ApiError "Card declined" true);
     listInput_answer := pick;
     promptBool_answer := true;
     clock := fun n => Z.of_nat n |}.

(** A world that answers the first fetch and then loses the connection. *)
Definition drops_after (c : CardCollection) : World :=
  {| ls_reply := fun n =>
       match n with
       | O => Resolved c
       | _ => Rejected (ApiError "Network down" true)
       end;
     setDefault_reply := fun _ => Resolved tt;
     rm_reply := fun _ => Resolved tt;
     addBilling_reply := Resolved tt;
     listInput_answer := Abort;
     promptBool_answer := true;
     clock := fun n => Z.of_nat n |}.

End Sample.

(** ** Bounding what a computation logs *)

(** The weight of a list of events. *)
Fixpoint total (weight : event -> nat) (t : list event) : nat :=
  match t with
  | [] => 0
  | e :: rest => weight e + total weight rest
  end.

(** The weight that counts the events satisfying [q]. *)
Definition one_for (q : event -> bool) (e : event) : nat :=
  if q e then 1 else 0.

(** From any state, [p] only adds events to the log, of weight at most
    [n] altogether. *)
Definition costs {A : Type} (weight : event -> nat) (w : World) (p : Proc A)
    (n : nat) : Prop :=
  forall s : State,
    exists newest,
      log (snd (p w s)) = (newest ++ log s)%list
      /\ total weight newest <= n.

(** An [exit] with a code other than 0 and 1. *)
Definition is_odd_exit (e : event) : bool :=
  match e with
  | Exit code => negb ((code =? 0)%Z || (code =? 1)%Z)
  | _ => false
  end.

Definition is_exit (e : event) : bool :=
  match e with
  | Exit _ => true
  | _ => false
  end.

Definition is_rm (e : event) : bool :=
  match e with
  | ApiRm _ => true
  | _ => false
  end.

Definition is_setDefault (e : event) : bool :=
  match e with
  | ApiSetDefault _ => true
  | _ => false
  end.

Definition is_list_prompt (e : event) : bool :=
  match e with
  | ListInput _ _ _ => true
  | _ => false
  end.

(** The text with which [main] reports a value thrown by [run]. *)
Definition thrown_report {P : Presentation} (e : jsError) : string :=
  if err_userError e
  then error (err_message e)
  else error ("Unknown error: " ++ err_stack e).

(** The [switch] of [run], with [start] the time read on entry. *)
Definition dispatch {P : Presentation} (subcommand : option string)
    (args : list string) (start : Z) (sh : Session) : Proc flow :=
  match option_map handler_of subcommand with
  | Some (Some HList) => case_ls start sh
  | Some (Some HSetDefault) => case_set_default args sh
  | Some (Some HRemove) => case_rm args sh
  | Some (Some HAdd) => case_add
  | Some None | None => case_default
  end.

(** The header line of the list handler. *)
Definition ls_header {P : Presentation} (c : CardCollection) (sh : Session)
    (elapsed : string) : string :=
  "> " ++ plural "card" (length (cards c)) true ++ " found under "
  ++ chalk_bold (owner sh) ++ " " ++ elapsed_tag elapsed.

(** * Properties *)

(** Unfolds the script down to the monad, so that [cbn] can run it as far
    as the replies of the world are known. *)
Ltac unfold_script :=
  unfold trace_of, outcome_of, exec, main, run, after_switch, case_ls,
    case_set_default, case_rm, case_add, case_default, confirm,
    confirm_set_default, confirm_rm, fetch_cards, creditCards_ls,
    creditCards_setDefault, creditCards_rm, creditCards_close, addBilling,
    listInput, promptBool, consoel_log, elapsed_since, new_Date, console_log,
    console_error, help, exit, emit, world, await, initial.

(** Splits [In sub resolving] into its three cases. *)
Ltac each_resolving H :=
  unfold resolving in H; simpl in H;
  destruct H as [<- | [<- | [<- | []]]].

(** ** Facts about the helpers *)

Lemma is_default_true (cardId : string) (dflt : option string) :
  is_default cardId dflt = true <-> dflt = Some cardId.
Proof.
  destruct dflt as [d|]; simpl.
  - rewrite String.eqb_eq. split; [intros -> | intros [= ->]]; reflexivity.
  - split; discriminate.
Qed.

Lemma is_default_false (cardId : string) (dflt : option string) :
  is_default cardId dflt = false <-> dflt <> Some cardId.
Proof.
  rewrite <- is_default_true. destruct (is_default cardId dflt); split;
    congruence.
Qed.

Lemma truthy_Some (s : string) : s <> "" -> truthy (Some s) = true.
Proof.
  intros H. simpl. destruct (String.eqb_spec s ""); [contradiction | reflexivity].
Qed.

Lemma js_or_truthy (s d : string) : s <> "" -> js_or (Some s) d = s.
Proof.
  intros H. simpl. destruct (String.eqb_spec s ""); [contradiction | reflexivity].
Qed.

Lemma nonempty_length {A : Type} (l : list A) :
  l <> [] -> (length l =? 0)%nat = false.
Proof. destruct l; [congruence | reflexivity]. Qed.

Lemma handler_of_unknown (sub : string) :
  ~ In sub known -> handler_of sub = None.
Proof.
  intros H. unfold handler_of.
  repeat match goal with
         | |- context [String.eqb sub ?lit] =>
             destruct (String.eqb_spec sub lit) as [-> | _];
             [exfalso; apply H; simpl; tauto | ]
         end.
  reflexivity.
Qed.

Lemma newlines_app (a b : string) :
  newlines (a ++ b) = newlines a + newlines b.
Proof.
  induction a as [| ch a IH]; simpl; [reflexivity | rewrite IH; lia].
Qed.

(** The trace of a state that was entered with the events [before] and
    has logged [newest] since. *)
Lemma trace_after (before newest : list event) (n m : nat) :
  trace {| log := (newest ++ rev before)%list;
           ls_calls := n;
           clock_reads := m |}
  = (before ++ rev newest)%list.
Proof.
  unfold trace. cbn [log]. rewrite rev_app_distr, rev_involutive. reflexivity.
Qed.

(** ** The paths through [run] *)

Section Paths.

Context {P : Presentation}.
Variables (w : World) (sh : Session).

(** More than one positional argument: the handler leaves at once. *)
Lemma path_too_many_arguments (sub : string) (args : list string) :
  In sub resolving ->
  2 <= length args ->
  exec (run (Some sub) (sub :: args) sh) w =
  (Done tt,
   {| log := [Exit 1; ConsoleError (error "Invalid number of arguments")];
      ls_calls := 0;
      clock_reads := 1 |}).
Proof.
  intros Hsub Hlen.
  assert (Hlt : (1 <? length args)%nat = true) by (apply Nat.ltb_lt; lia).
  each_resolving Hsub; unfold_script; cbn -[Nat.ltb]; rewrite Hlt;
    reflexivity.
Qed.

(** The first fetch fails in a resolving handler. *)
Lemma path_fetch_failed (sub : string) (args : list string) (e : jsError) :
  In sub resolving ->
  length args <= 1 ->
  ls_reply w 0 = Rejected e ->
  exec (run (Some sub) (sub :: args) sh) w =
  (Done tt,
   {| log := [ConsoleError (error (err_message e)); ApiLs];
      ls_calls := 1;
      clock_reads := 2 |}).
Proof.
  intros Hsub Hlen Hls.
  assert (Hlt : (1 <? length args)%nat = false) by (apply Nat.ltb_ge; lia).
  each_resolving Hsub; unfold_script; cbn -[Nat.ltb]; rewrite Hlt; cbn;
    rewrite Hls; reflexivity.
Qed.

(** The fetch fails in the list handler. *)
Lemma path_ls_fetch_failed (sub : string) (args : list string) (e : jsError) :
  sub = "ls" \/ sub = "list" ->
  ls_reply w 0 = Rejected e ->
  exec (run (Some sub) (sub :: args) sh) w =
  (Done tt,
   {| log := [ConsoleError (error (err_message e)); ApiLs];
      ls_calls := 1;
      clock_reads := 1 |}).
Proof.
  intros [-> | ->] Hls; unfold_script; cbn; rewrite Hls; reflexivity.
Qed.

(** The fetched collection is empty. *)
Lemma path_no_cards (sub : string) (args : list string) (c : CardCollection) :
  In sub resolving ->
  length args <= 1 ->
  ls_reply w 0 = Resolved c ->
  cards c = [] ->
  exec (run (Some sub) (sub :: args) sh) w =
  (Done tt,
   {| log := [Exit 0; ConsoleError (error (no_cards_message sub sh)); ApiLs];
      ls_calls := 1;
      clock_reads := 2 |}).
Proof.
  intros Hsub Hlen Hls Hc.
  assert (Hlt : (1 <? length args)%nat = false) by (apply Nat.ltb_ge; lia).
  each_resolving Hsub; unfold_script; cbn -[Nat.ltb]; rewrite Hlt; cbn;
    rewrite Hls; cbn; rewrite Hc; reflexivity.
Qed.

(** No argument, and the user leaves the list prompt. *)
Lemma path_selection_aborted (sub : string) (c : CardCollection) :
  In sub resolving ->
  ls_reply w 0 = Resolved c ->
  cards c <> [] ->
  listInput_answer w = Abort ->
  exec (run (Some sub) [sub] sh) w =
  (Done tt,
   {| log :=
        [ ApiClose;
          ConsoleLog "No changes made";
          ListInput (prompt_message sub sh (ms (clock w 2 - clock w 1)))
                    (buildInquirerChoices c) (prompt_abort sub);
          ApiLs ];
      ls_calls := 1;
      clock_reads := 3 |}).
Proof.
  intros Hsub Hls Hc Hpick.
  apply nonempty_length in Hc.
  each_resolving Hsub; unfold_script; cbn -[Nat.eqb]; rewrite Hls;
    cbn -[Nat.eqb]; rewrite Hc; cbn; rewrite Hpick; reflexivity.
Qed.

(** A subcommand without a [case]. *)
Lemma path_unknown_subcommand (sub : string) (args : list string) :
  ~ In sub known ->
  exec (run (Some sub) (sub :: args) sh) w =
  (Done tt,
   {| log :=
        [ ApiClose;
          Exit 1;
          Help;
          ConsoleError
            (error "Please specify a valid subcommand: ls | add | rm | set-default") ];
      ls_calls := 0;
      clock_reads := 1 |}).
Proof.
  intros Hsub. unfold exec, run. cbn [option_map].
  rewrite (handler_of_unknown sub Hsub). reflexivity.
Qed.

(** [main] adds nothing to a run that does not throw. *)
Lemma main_passes_normal_runs (sub : string) (args : list string)
    (s' : State) :
  sub <> "" ->
  exec (run (Some sub) (sub :: args) sh) w = (Done tt, s') ->
  exec (main false (sub :: args) sh) w = (Done tt, s').
Proof.
  intros Hsub Hrun. unfold exec, main. cbn [nth_error orb].
  rewrite (truthy_Some sub Hsub). cbn [negb catch MonadExc_Proc].
  unfold exec in Hrun. rewrite Hrun. reflexivity.
Qed.

(** A card id has been arrived at: the confirmation block is entered. *)
Lemma path_reaches_confirmation (sub : string) (args : list string)
    (c : CardCollection) (cardId : string) :
  In sub resolving ->
  length args <= 1 ->
  ls_reply w 0 = Resolved c ->
  cards c <> [] ->
  resolution args w c = Some cardId ->
  cardId <> "" ->
  exec (run (Some sub) (sub :: args) sh) w =
  (f <- confirm sub cardId c sh ;; after_switch f)%monad
    w (resolved sub sh args w c).
Proof.
  intros Hsub Hlen Hls Hc Hres Hid.
  apply nonempty_length in Hc.
  pose proof (truthy_Some cardId Hid) as Htruthy.
  pose proof (js_or_truthy cardId "" Hid) as Hor.
  destruct args as [| a [| b args]]; [ | | simpl in Hlen; lia].
  - (* picked at the prompt *)
    unfold resolution in Hres. cbn [nth_error] in Hres.
    destruct (listInput_answer w) as [| i] eqn:Hpick; [discriminate |].
    assert (Hval : option_map Choice.value
                     (nth_error (buildInquirerChoices c) i) = Some cardId).
    { unfold buildInquirerChoices. rewrite nth_error_map.
      destruct (nth_error (cards c) i); [exact Hres | discriminate]. }
    each_resolving Hsub; unfold exec, run, case_set_default, case_rm,
      fetch_cards, creditCards_ls, listInput, elapsed_since, new_Date, emit,
      world, await, initial, resolved; cbn -[Nat.eqb truthy js_or];
      rewrite Hls; cbn -[Nat.eqb truthy js_or]; rewrite Hc;
      cbn -[truthy js_or]; rewrite Hpick; cbn -[truthy js_or];
      rewrite Hval, Htruthy, Hor; reflexivity.
  - (* given as the argument *)
    unfold resolution in Hres. cbn [nth_error] in Hres.
    injection Hres as ->.
    each_resolving Hsub; unfold exec, run, case_set_default, case_rm,
      fetch_cards, creditCards_ls, new_Date, emit, world, await, initial,
      resolved; cbn -[Nat.eqb truthy js_or]; rewrite Hls;
      cbn -[Nat.eqb truthy js_or]; rewrite Hc;
      cbn -[truthy js_or]; rewrite Htruthy, Hor; reflexivity.
Qed.

End Paths.

(** ** The confirmation blocks, from any state *)

Section Confirmation.

Context {P : Presentation}.
Variables (w : World) (sh : Session) (c : CardCollection) (cardId : string).
Variable s : State.

Lemma set_default_declined :
  promptBool_answer w = false ->
  confirm_set_default cardId c w s =
  (Thrown (ReferenceError "consoel is not defined"),
   {| log := confirmation "set-default" :: log s;
      ls_calls := ls_calls s;
      clock_reads := clock_reads s |}).
Proof.
  intros Hno. unfold_script. cbn. rewrite Hno. reflexivity.
Qed.

Lemma set_default_rejected (e : jsError) :
  promptBool_answer w = true ->
  setDefault_reply w cardId = Rejected e ->
  confirm_set_default cardId c w s =
  (Thrown e,
   {| log := ApiSetDefault cardId :: confirmation "set-default" :: log s;
      ls_calls := ls_calls s;
      clock_reads := S (clock_reads s) |}).
Proof.
  intros Hyes Hrep. unfold_script. cbn. rewrite Hyes. cbn. rewrite Hrep.
  reflexivity.
Qed.

Lemma set_default_unlisted :
  promptBool_answer w = true ->
  setDefault_reply w cardId = Resolved tt ->
  find (id_is cardId) (cards c) = None ->
  confirm_set_default cardId c w s =
  (Thrown (TypeError "Cannot read property 'brand' of undefined"),
   {| log := ApiSetDefault cardId :: confirmation "set-default" :: log s;
      ls_calls := ls_calls s;
      clock_reads := S (S (clock_reads s)) |}).
Proof.
  intros Hyes Hrep Hfind. unfold_script. cbn. rewrite Hyes. cbn.
  rewrite Hrep. cbn. rewrite Hfind. reflexivity.
Qed.

Lemma set_default_done (card : Card.t) :
  promptBool_answer w = true ->
  setDefault_reply w cardId = Resolved tt ->
  find (id_is cardId) (cards c) = Some card ->
  confirm_set_default cardId c w s =
  (Done Break,
   {| log :=
        ConsoleLog (success (Card.brand card ++ " ending in "
                             ++ Card.last4 card ++ " is now the default "
                             ++ elapsed_at w (clock_reads s)))
        :: ApiSetDefault cardId :: confirmation "set-default" :: log s;
      ls_calls := ls_calls s;
      clock_reads := S (S (clock_reads s)) |}).
Proof.
  intros Hyes Hrep Hfind. unfold_script. cbn. rewrite Hyes. cbn.
  rewrite Hrep. cbn. rewrite Hfind. reflexivity.
Qed.

Lemma rm_declined :
  promptBool_answer w = false ->
  confirm_rm cardId c sh w s =
  (Done Break,
   {| log := ConsoleLog "Aborted" :: confirmation "rm" :: log s;
      ls_calls := ls_calls s;
      clock_reads := clock_reads s |}).
Proof.
  intros Hno. unfold_script. cbn. rewrite Hno. reflexivity.
Qed.

Lemma rm_rejected (e : jsError) :
  promptBool_answer w = true ->
  rm_reply w cardId = Rejected e ->
  confirm_rm cardId c sh w s =
  (Thrown e,
   {| log := ApiRm cardId :: confirmation "rm" :: log s;
      ls_calls := ls_calls s;
      clock_reads := S (clock_reads s) |}).
Proof.
  intros Hyes Hrep. unfold_script. cbn. rewrite Hyes. cbn. rewrite Hrep.
  reflexivity.
Qed.

Lemma rm_unlisted :
  promptBool_answer w = true ->
  rm_reply w cardId = Resolved tt ->
  find (id_is cardId) (cards c) = None ->
  confirm_rm cardId c sh w s =
  (Thrown (TypeError "Cannot read property 'brand' of undefined"),
   {| log := ApiRm cardId :: confirmation "rm" :: log s;
      ls_calls := ls_calls s;
      clock_reads := S (clock_reads s) |}).
Proof.
  intros Hyes Hrep Hfind. unfold_script. cbn. rewrite Hyes. cbn.
  rewrite Hrep. cbn. rewrite Hfind. reflexivity.
Qed.

Section Deleted.

Variable deleted : Card.t.
Hypothesis confirmed : promptBool_answer w = true.
Hypothesis removed : rm_reply w cardId = Resolved tt.
Hypothesis listed : find (id_is cardId) (cards c) = Some deleted.

Lemma rm_not_default :
  defaultCardId c <> Some cardId ->
  confirm_rm cardId c sh w s =
  (Done Break,
   {| log :=
        ConsoleLog (success (deleted_text deleted ++ " " ++ elapsed_at w (clock_reads s)))
        :: ApiRm cardId :: confirmation "rm" :: log s;
      ls_calls := ls_calls s;
      clock_reads := S (S (clock_reads s)) |}).
Proof.
  intros Hdef. apply is_default_false in Hdef.
  unfold_script. cbn. rewrite confirmed. cbn. rewrite removed. cbn.
  rewrite listed, Hdef. reflexivity.
Qed.

Lemma rm_last_default :
  defaultCardId c = Some cardId ->
  others cardId c = [] ->
  confirm_rm cardId c sh w s =
  (Done Break,
   {| log :=
        ConsoleLog
          (success ((deleted_text deleted ++ nl ++ chalk_yellow "Warning!"
                     ++ " You have no default card") ++ " " ++ elapsed_at w (clock_reads s)))
        :: ApiRm cardId :: confirmation "rm" :: log s;
      ls_calls := ls_calls s;
      clock_reads := S (S (clock_reads s)) |}).
Proof.
  intros Hdef Hrest. apply is_default_true in Hdef. unfold others in Hrest.
  unfold_script. cbn. rewrite confirmed. cbn. rewrite removed. cbn.
  rewrite listed, Hdef, Hrest. reflexivity.
Qed.

Lemma rm_default_refetch_failed (e : jsError) :
  defaultCardId c = Some cardId ->
  others cardId c <> [] ->
  ls_reply w (ls_calls s) = Rejected e ->
  confirm_rm cardId c sh w s =
  (Thrown e,
   {| log := ApiLs :: ApiRm cardId :: confirmation "rm" :: log s;
      ls_calls := S (ls_calls s);
      clock_reads := S (clock_reads s) |}).
Proof.
  intros Hdef Hrest Hls. apply is_default_true in Hdef.
  apply nonempty_length in Hrest. unfold others in Hrest.
  unfold_script. cbn -[Nat.eqb]. rewrite confirmed. cbn -[Nat.eqb].
  rewrite removed. cbn -[Nat.eqb]. rewrite listed, Hdef, Hrest.
  cbn. rewrite Hls. reflexivity.
Qed.

Lemma rm_default_refetch_without_default (c' : CardCollection) :
  defaultCardId c = Some cardId ->
  others cardId c <> [] ->
  ls_reply w (ls_calls s) = Resolved c' ->
  default_of c' = None ->
  confirm_rm cardId c sh w s =
  (Thrown (TypeError "Cannot read property 'brand' of undefined"),
   {| log := ApiLs :: ApiRm cardId :: confirmation "rm" :: log s;
      ls_calls := S (ls_calls s);
      clock_reads := S (clock_reads s) |}).
Proof.
  intros Hdef Hrest Hls Hnew. apply is_default_true in Hdef.
  apply nonempty_length in Hrest. unfold others in Hrest.
  unfold default_of in Hnew.
  unfold_script. cbn -[Nat.eqb]. rewrite confirmed. cbn -[Nat.eqb].
  rewrite removed. cbn -[Nat.eqb]. rewrite listed, Hdef, Hrest.
  cbn. rewrite Hls. cbn. rewrite Hnew. reflexivity.
Qed.

Lemma rm_default_refetched (c' : CardCollection) (newDefault : Card.t) :
  defaultCardId c = Some cardId ->
  others cardId c <> [] ->
  ls_reply w (ls_calls s) = Resolved c' ->
  default_of c' = Some newDefault ->
  confirm_rm cardId c sh w s =
  (Done Break,
   {| log :=
        ConsoleLog
          (success ((deleted_text deleted ++ nl ++ Card.brand newDefault
                     ++ " ending in " ++ Card.last4 newDefault
                     ++ " in now default for " ++ chalk_bold (owner sh))
                    ++ " " ++ elapsed_at w (clock_reads s)))
        :: ApiLs :: ApiRm cardId :: confirmation "rm" :: log s;
      ls_calls := S (ls_calls s);
      clock_reads := S (S (clock_reads s)) |}).
Proof.
  intros Hdef Hrest Hls Hnew. apply is_default_true in Hdef.
  apply nonempty_length in Hrest. unfold others in Hrest.
  unfold default_of in Hnew.
  unfold_script. cbn -[Nat.eqb]. rewrite confirmed. cbn -[Nat.eqb].
  rewrite removed. cbn -[Nat.eqb]. rewrite listed, Hdef, Hrest.
  cbn. rewrite Hls. cbn. rewrite Hnew. reflexivity.
Qed.

End Deleted.

End Confirmation.

(** ** Rejections and benign exits *)

(** C7.  [set-default], [rm] and [remove] called with two or more
    positional arguments print an error and exit with code 1; no request
    goes to the API, not even the fetch of the card list. *)
Theorem too_many_arguments_rejected {P : Presentation} (w : World)
    (sh : Session) (sub : string) (args : list string) :
  In sub resolving ->
  2 <= length args ->
  let t := trace_of (run (Some sub) (sub :: args) sh) w in
  t = [ConsoleError (error "Invalid number of arguments"); Exit 1]
  /\ exit_status t = Some 1%Z
  /\ count is_request t = 0.
Proof.
  intros Hsub Hlen t. subst t. unfold trace_of.
  rewrite (path_too_many_arguments w sh sub args Hsub Hlen).
  repeat split.
Qed.

Lemma too_many_arguments_rejected_witness :
  In "rm" resolving
  /\ 2 <= length ["a"; "b"]
  /\ trace_of (run (P := plain) (Some "rm") ["rm"; "a"; "b"] Sample.ann)
              Sample.offline
     = [ConsoleError "> Error! Invalid number of arguments"; Exit 1].
Proof.
  assert (Hsub : In "rm" resolving) by (right; left; reflexivity).
  assert (Hlen : 2 <= length ["a"; "b"]) by (simpl; lia).
  split; [exact Hsub | split; [exact Hlen |]].
  exact (proj1 (too_many_arguments_rejected (P := plain) Sample.offline
                  Sample.ann "rm" ["a"; "b"] Hsub Hlen)).
Defined.

(** C5.  When the fetched collection is empty, [set-default], [rm] and
    [remove] report that there are no cards and exit with code 0; no prompt
    is shown and no mutating request is made. *)
Theorem empty_collection_exits_zero {P : Presentation} (w : World)
    (sh : Session) (sub : string) (args : list string) (c : CardCollection) :
  In sub resolving ->
  length args <= 1 ->
  ls_reply w 0 = Resolved c ->
  cards c = [] ->
  let t := trace_of (run (Some sub) (sub :: args) sh) w in
  t = [ApiLs; ConsoleError (error (no_cards_message sub sh)); Exit 0]
  /\ prefix "You have no credit cards to choose from"
            (no_cards_message sub sh) = true
  /\ exit_status t = Some 0%Z
  /\ count is_prompt t = 0
  /\ count is_mutation t = 0.
Proof.
  intros Hsub Hlen Hls Hc t. subst t. unfold trace_of.
  rewrite (path_no_cards w sh sub args c Hsub Hlen Hls Hc).
  repeat split. each_resolving Hsub; reflexivity.
Qed.

Lemma empty_collection_exits_zero_witness :
  In "set-default" resolving
  /\ length ["a"] <= 1
  /\ trace_of (run (P := plain) (Some "set-default") ["set-default"; "a"]
                   Sample.ann)
              (Sample.account Sample.no_cards Sample.no_cards Abort true)
     = [ ApiLs;
         ConsoleError "> Error! You have no credit cards to choose from";
         Exit 0 ].
Proof.
  assert (Hsub : In "set-default" resolving) by (left; reflexivity).
  assert (Hlen : length ["a"] <= 1) by (simpl; lia).
  split; [exact Hsub | split; [exact Hlen |]].
  exact (proj1 (empty_collection_exits_zero (P := plain)
                  (Sample.account Sample.no_cards Sample.no_cards Abort true)
                  Sample.ann "set-default" ["a"] Sample.no_cards
                  Hsub Hlen eq_refl eq_refl)).
Defined.

(** C6.  [set-default], [rm] and [remove] without a positional argument,
    over a collection that is not empty: when the user leaves the list
    prompt, "No changes made" is printed, the yes/no question is not asked
    and no mutating request is made. *)
Theorem aborted_selection_changes_nothing {P : Presentation} (w : World)
    (sh : Session) (sub : string) (c : CardCollection) :
  In sub resolving ->
  ls_reply w 0 = Resolved c ->
  cards c <> [] ->
  listInput_answer w = Abort ->
  let t := trace_of (run (Some sub) [sub] sh) w in
  t = [ ApiLs;
        ListInput (prompt_message sub sh (ms (clock w 2 - clock w 1)))
                  (buildInquirerChoices c) (prompt_abort sub);
        ConsoleLog "No changes made";
        ApiClose ]
  /\ count is_confirmation t = 0
  /\ count is_mutation t = 0.
Proof.
  intros Hsub Hls Hc Hpick t. subst t. unfold trace_of.
  rewrite (path_selection_aborted w sh sub c Hsub Hls Hc Hpick).
  repeat split.
Qed.

Lemma aborted_selection_changes_nothing_witness :
  In "remove" resolving
  /\ cards Sample.two_cards <> []
  /\ count is_mutation
       (trace_of (run (P := plain) (Some "remove") ["remove"] Sample.ann)
                 (Sample.account Sample.two_cards Sample.two_cards Abort true))
     = 0.
Proof.
  assert (Hsub : In "remove" resolving) by (right; right; left; reflexivity).
  assert (Hc : cards Sample.two_cards <> []) by discriminate.
  split; [exact Hsub | split; [exact Hc |]].
  exact (proj2 (proj2 (aborted_selection_changes_nothing (P := plain)
                  (Sample.account Sample.two_cards Sample.two_cards Abort true)
                  Sample.ann "remove" Sample.two_cards
                  Hsub eq_refl Hc eq_refl))).
Defined.

(** C10.  A subcommand that the dispatcher does not know makes it print an
    error, show the help text and exit with code 1; no handler runs: no
    request goes to the API and no prompt is shown. *)
Theorem unknown_subcommand_rejected {P : Presentation} (w : World)
    (sh : Session) (sub : string) (args : list string) :
  ~ In sub known ->
  let t := trace_of (run (Some sub) (sub :: args) sh) w in
  t = [ ConsoleError
          (error "Please specify a valid subcommand: ls | add | rm | set-default");
        Help;
        Exit 1;
        ApiClose ]
  /\ exit_status t = Some 1%Z
  /\ count is_request t = 0
  /\ count is_prompt t = 0.
Proof.
  intros Hsub t. subst t. unfold trace_of.
  rewrite (path_unknown_subcommand w sh sub args Hsub).
  repeat split.
Qed.

Lemma unknown_subcommand_rejected_witness :
  ~ In "pay" known
  /\ exit_status
       (trace_of (run (P := plain) (Some "pay") ["pay"; "a"] Sample.ann)
                 Sample.offline)
     = Some 1%Z.
Proof.
  assert (Hsub : ~ In "pay" known).
  { simpl. intros [H | [H | [H | [H | [H | [H | []]]]]]]; discriminate H. }
  split; [exact Hsub |].
  exact (proj1 (proj2 (unknown_subcommand_rejected (P := plain) Sample.offline
                         Sample.ann "pay" ["a"] Hsub))).
Defined.

(** ** Declining the confirmation *)

Section Declined.

Context {P : Presentation}.
Variables (w : World) (sh : Session) (c : CardCollection).
Variables (args : list string) (cardId : string).

Hypothesis at_most_one : length args <= 1.
Hypothesis fetched : ls_reply w 0 = Resolved c.
Hypothesis some_cards : cards c <> [].
Hypothesis target : resolution args w c = Some cardId.
Hypothesis target_truthy : cardId <> "".
Hypothesis declined : promptBool_answer w = false.

(** In the rm case a negative answer prints "Aborted" and leaves through
    [break]: nothing is removed and the client is closed. *)
Lemma declined_rm_aborts (sub : string) :
  sub = "rm" \/ sub = "remove" ->
  exec (run (Some sub) (sub :: args) sh) w =
  (Done tt,
   {| log := ApiClose :: ConsoleLog "Aborted" :: confirmation sub
             :: log (resolved sub sh args w c);
      ls_calls := 1;
      clock_reads := 2 + length (resolution_trace sub sh args w c) |}).
Proof.
  intros Hsub.
  assert (Hres : In sub resolving)
    by (destruct Hsub as [-> | ->]; simpl; tauto).
  rewrite (path_reaches_confirmation w sh sub args c cardId
             Hres at_most_one fetched some_cards target target_truthy).
  destruct Hsub as [-> | ->]; cbn [bind Monad_Proc];
    unfold confirm; cbn [String.eqb Ascii.eqb Bool.eqb];
    rewrite rm_declined by exact declined; reflexivity.
Qed.

(** In the set-default case a negative answer reaches [consoel.log]: the
    handler throws and the statement after the switch is never run. *)
Lemma declined_set_default_throws :
  exec (run (Some "set-default") ("set-default" :: args) sh) w =
  (Thrown (ReferenceError "consoel is not defined"),
   {| log := confirmation "set-default"
             :: log (resolved "set-default" sh args w c);
      ls_calls := 1;
      clock_reads := 2 + length (resolution_trace "set-default" sh args w c) |}).
Proof.
  assert (Hres : In "set-default" resolving) by (simpl; tauto).
  rewrite (path_reaches_confirmation w sh "set-default" args c cardId
             Hres at_most_one fetched some_cards target target_truthy).
  cbn [bind Monad_Proc]. unfold confirm. cbn [String.eqb Ascii.eqb Bool.eqb].
  rewrite set_default_declined by exact declined. reflexivity.
Qed.

(** [main] reports that throw as an unknown error and exits with code 1. *)
Lemma declined_set_default_exits_one :
  trace_of (main false ("set-default" :: args) sh) w =
  ApiLs :: resolution_trace "set-default" sh args w c
  ++ [ confirmation "set-default";
       ConsoleError
         (error ("Unknown error: "
                 ++ err_stack (ReferenceError "consoel is not defined")));
       Exit 1 ].
Proof.
  pose proof declined_set_default_throws as Hrun. unfold exec in Hrun.
  unfold trace_of, exec, main. cbn [nth_error truthy String.eqb negb orb].
  cbn [catch MonadExc_Proc]. rewrite Hrun.
  exact (trace_after
           (ApiLs :: resolution_trace "set-default" sh args w c)
           [ Exit 1;
             ConsoleError
               (error ("Unknown error: "
                       ++ err_stack (ReferenceError "consoel is not defined")));
             confirmation "set-default" ] _ _).
Qed.

End Declined.

(** C1.  Declining the confirmation of [set-default]: no mutating request
    is made, but the handler does not print a plain message; it throws at
    [consoel.log], and [main] reports an unknown error and exits with
    code 1. *)
Theorem declined_set_default_reports_unknown_error :
  let w := Sample.account Sample.two_cards Sample.two_cards Abort false in
  outcome_of (run (P := plain) (Some "set-default") ["set-default"; "a"]
                  Sample.ann) w
  = Thrown (ReferenceError "consoel is not defined")
  /\ trace_of (main (P := plain) false ["set-default"; "a"] Sample.ann) w
     = [ ApiLs;
         PromptBool "Are you sure that you to set this card as the default?"
                    (Some nl);
         ConsoleError "> Error! Unknown error: consoel is not defined";
         Exit 1 ]
  /\ count is_mutation
       (trace_of (main (P := plain) false ["set-default"; "a"] Sample.ann) w)
     = 0.
Proof.
  cbv zeta. repeat split; vm_compute; reflexivity.
Qed.

(** ** Closing the client *)

Section EarlyReturns.

Context {P : Presentation}.
Variables (w : World) (sh : Session).

(** The [return] taken when the fetch of the list handler fails skips the
    statement after the switch. *)
Lemma ls_fetch_failure_skips_close (sub : string) (args : list string)
    (e : jsError) :
  sub = "ls" \/ sub = "list" ->
  ls_reply w 0 = Rejected e ->
  count is_close (trace_of (run (Some sub) (sub :: args) sh) w) = 0.
Proof.
  intros Hsub Hls. unfold trace_of.
  rewrite (path_ls_fetch_failed w sh sub args e Hsub Hls). reflexivity.
Qed.

Lemma fetch_failure_skips_close (sub : string) (args : list string)
    (e : jsError) :
  In sub resolving ->
  length args <= 1 ->
  ls_reply w 0 = Rejected e ->
  count is_close (trace_of (run (Some sub) (sub :: args) sh) w) = 0.
Proof.
  intros Hsub Hlen Hls. unfold trace_of.
  rewrite (path_fetch_failed w sh sub args e Hsub Hlen Hls). reflexivity.
Qed.

Lemma too_many_arguments_skips_close (sub : string) (args : list string) :
  In sub resolving ->
  2 <= length args ->
  count is_close (trace_of (run (Some sub) (sub :: args) sh) w) = 0.
Proof.
  intros Hsub Hlen. unfold trace_of.
  rewrite (path_too_many_arguments w sh sub args Hsub Hlen). reflexivity.
Qed.

Lemma no_cards_skips_close (sub : string) (args : list string)
    (c : CardCollection) :
  In sub resolving ->
  length args <= 1 ->
  ls_reply w 0 = Resolved c ->
  cards c = [] ->
  count is_close (trace_of (run (Some sub) (sub :: args) sh) w) = 0.
Proof.
  intros Hsub Hlen Hls Hc. unfold trace_of.
  rewrite (path_no_cards w sh sub args c Hsub Hlen Hls Hc). reflexivity.
Qed.

(** Paths that leave the switch through [break] do close the client. *)
Lemma aborted_selection_closes_once (sub : string) (c : CardCollection) :
  In sub resolving ->
  ls_reply w 0 = Resolved c ->
  cards c <> [] ->
  listInput_answer w = Abort ->
  count is_close (trace_of (run (Some sub) [sub] sh) w) = 1.
Proof.
  intros Hsub Hls Hc Hpick. unfold trace_of.
  rewrite (path_selection_aborted w sh sub c Hsub Hls Hc Hpick). reflexivity.
Qed.

End EarlyReturns.

(** C2.  The list handler whose fetch fails prints the error and returns:
    [close()] is not called at all on that path. *)
Theorem failed_list_fetch_never_closes :
  trace_of (run (P := plain) (Some "ls") ["ls"] Sample.ann) Sample.offline
  = [ApiLs; ConsoleError "> Error! Network down"]
  /\ count is_close
       (trace_of (run (P := plain) (Some "ls") ["ls"] Sample.ann)
                 Sample.offline)
     = 0.
Proof.
  split; vm_compute; reflexivity.
Qed.

(** ** The choices of the list prompt *)

(** The marker is there exactly for the default card. *)
Lemma default_marker_cases {P : Presentation} (card : Card.t)
    (c : CardCollection) :
  default_marker card c = " " ++ chalk_bold "(default)"
  /\ defaultCardId c = Some (Card.id card)
  \/ default_marker card c = ""
     /\ defaultCardId c <> Some (Card.id card).
Proof.
  unfold default_marker.
  destruct (is_default (Card.id card) (defaultCardId c)) eqn:Hd.
  - left. split; [reflexivity | apply is_default_true; exact Hd].
  - right. split; [reflexivity | apply is_default_false; exact Hd].
Qed.

(** A value that the list prompt returns is the value of a choice. *)
Lemma listInput_returns_a_choice (w : World) (s s' : State)
    (message abort v : string) (choices : list Choice.t) :
  listInput message choices abort w s = (Done (Some v), s') ->
  In v (map Choice.value choices).
Proof.
  unfold listInput, emit, world. cbn.
  destruct (listInput_answer w) as [| i]; cbn; [discriminate |].
  destruct (nth_error choices i) as [ch |] eqn:Hnth; cbn; [| discriminate].
  intros [= <- _]. apply in_map. exact (nth_error_In _ _ Hnth).
Qed.

(** C9.  [buildInquirerChoices] yields one choice per card, in the order of
    the cards; the value and the short form of a choice are the id of its
    card, and its label carries the "(default)" marker exactly when that id
    is [defaultCardId].  Hence an id that the list prompt returns over
    these choices is the id of a card of the collection. *)
Theorem buildInquirerChoices_spec {P : Presentation} (c : CardCollection) :
  map Choice.value (buildInquirerChoices c) = map Card.id (cards c)
  /\ map Choice.short (buildInquirerChoices c) = map Card.id (cards c)
  /\ Forall2
       (fun card ch =>
          exists marker,
            Choice.name ch
            = String.concat nl
                [ chalk_cyan ("ID: " ++ Card.id card) ++ marker;
                  indent (Card.name card) 2;
                  indent (Card.brand card ++ " " ++ masked_number card) 2 ]
            /\ (marker = " " ++ chalk_bold "(default)"
                /\ defaultCardId c = Some (Card.id card)
                \/ marker = "" /\ defaultCardId c <> Some (Card.id card)))
       (cards c) (buildInquirerChoices c)
  /\ forall (w : World) (s s' : State) (message abort v : string),
       listInput message (buildInquirerChoices c) abort w s
       = (Done (Some v), s') ->
       exists card, In card (cards c) /\ Card.id card = v.
Proof.
  assert (Hval : map Choice.value (buildInquirerChoices c)
                 = map Card.id (cards c)).
  { unfold buildInquirerChoices. rewrite map_map. reflexivity. }
  split; [exact Hval |].
  split; [unfold buildInquirerChoices; rewrite map_map; reflexivity |].
  split.
  - clear Hval. unfold buildInquirerChoices.
    induction (cards c) as [| card rest IH]; cbn [map]; constructor.
    + exists (default_marker card c). split; [reflexivity |].
      apply default_marker_cases.
    + exact IH.
  - intros w s s' message abort v Hprompt.
    apply listInput_returns_a_choice in Hprompt.
    rewrite Hval in Hprompt. apply in_map_iff in Hprompt.
    destruct Hprompt as [card [Hid Hin]]. exists card. split; assumption.
Qed.

Lemma buildInquirerChoices_spec_witness :
  exists card, In card (cards Sample.two_cards) /\ Card.id card = "b".
Proof.
  apply (proj2 (proj2 (proj2
           (buildInquirerChoices_spec (P := plain) Sample.two_cards)))
           (Sample.account Sample.two_cards Sample.two_cards (Pick 1) true)
           initial
           {| log := [ListInput "Pick a card"
                        (buildInquirerChoices (P := plain) Sample.two_cards)
                        "end"];
              ls_calls := 0;
              clock_reads := 0 |}
           "Pick a card" "end" "b").
  reflexivity.
Defined.

(** ** The list handler *)

Lemma string_app_assoc (a b d : string) : (a ++ b) ++ d = a ++ (b ++ d).
Proof.
  induction a as [| ch a IH]; simpl; [reflexivity | rewrite IH; reflexivity].
Qed.

(** The address is a street line and a locality line. *)
Lemma ls_address_two_parts (card : Card.t) :
  ls_address card = street_line card ++ nl ++ locality_line card.
Proof.
  unfold ls_address, street_line, locality_line, truthy, js_or.
  destruct (Card.address_line2 card) as [line2 |];
    destruct (Card.address_state card) as [state |];
    try destruct (line2 =? ""); try destruct (state =? "");
    cbn [negb]; rewrite ?string_app_assoc; reflexivity.
Qed.

Lemma street_line_single (card : Card.t) :
  single_line_fields card -> newlines (street_line card) = 0.
Proof.
  intros (H1 & H2 & _). unfold street_line.
  destruct (Card.address_line2 card) as [line2 |]; cbn [js_or] in H2.
  - destruct (line2 =? ""); rewrite ?newlines_app, H1, ?H2; reflexivity.
  - rewrite newlines_app, H1. reflexivity.
Qed.

Lemma locality_line_single (card : Card.t) :
  single_line_fields card -> newlines (locality_line card) = 0.
Proof.
  intros (_ & _ & H3 & H4 & H5 & H6). unfold locality_line.
  destruct (Card.address_state card) as [state |]; cbn [js_or] in H4.
  - destruct (state =? ""); rewrite ?newlines_app, H3, ?H4, H5, H6;
      reflexivity.
  - rewrite !newlines_app, H3, H5, H6. reflexivity.
Qed.

(** The list handler, when the fetch succeeds and there is a card to show:
    a header, then the cards, then the client is closed. *)
Lemma path_ls_listed {P : Presentation} (w : World) (sh : Session)
    (sub : string) (args : list string) (c : CardCollection) :
  sub = "ls" \/ sub = "list" ->
  ls_reply w 0 = Resolved c ->
  ls_text c <> "" ->
  trace_of (run (Some sub) (sub :: args) sh) w =
  [ ApiLs;
    ConsoleLog ("> " ++ plural "card" (length (cards c)) true
                ++ " found under " ++ chalk_bold (owner sh)
                ++ " " ++ elapsed_tag (ms (clock w 1 - clock w 0)));
    ConsoleLog (nl ++ ls_text c ++ nl);
    ApiClose ].
Proof.
  intros Hsub Hls Htext. apply String.eqb_neq in Htext.
  destruct Hsub as [-> | ->]; unfold_script; cbn -[ls_text];
    rewrite Hls; cbn -[ls_text]; rewrite Htext; reflexivity.
Qed.

(** The list of the sample account, without colours. *)
Example ls_renders_two_cards :
  trace_of (run (P := plain) (Some "ls") ["ls"] Sample.ann)
           (Sample.account Sample.two_cards Sample.two_cards Abort true)
  = [ ApiLs;
      ConsoleLog "> 2 cards found under ann [1ms]";
      ConsoleLog
        (nl ++ "- ID: a (default)" ++ nl
         ++ "  Ann Lee" ++ nl
         ++ "  Visa #### #### #### 1111" ++ nl
         ++ "  1 Main St." ++ nl
         ++ "  Springfield, 12345. US" ++ nl
         ++ nl
         ++ "- ID: b" ++ nl
         ++ "  Bob Ray" ++ nl
         ++ "  MasterCard #### #### #### 2222" ++ nl
         ++ "  2 High St, Apt 3." ++ nl
         ++ "  Portland, OR, 97201. US" ++ nl);
      ApiClose ].
Proof. vm_compute. reflexivity. Qed.

(** C8, as the code has it.  What the list handler renders for a card is
    four parts joined by line breaks: the id with the "(default)" marker
    exactly when the id is [defaultCardId]; the cardholder name; the brand
    and a masked number that ends in the last four digits; the address.
    The address always takes two lines: the street line, to which
    [address_line2] is appended after a comma when there is one, and the
    line of city, state, zip and country. *)
Theorem ls_card_text_spec {P : Presentation} (c : CardCollection)
    (card : Card.t) :
  single_line_fields card ->
  ls_card_text c card
  = String.concat nl
      [ chalk_gray "-" ++ " " ++ chalk_cyan ("ID: " ++ Card.id card)
        ++ default_marker card c;
        indent (Card.name card) 2;
        indent (Card.brand card ++ " " ++ masked_number card) 2;
        indent (ls_address card) 2 ]
  /\ (default_marker card c = " " ++ chalk_bold "(default)"
      /\ defaultCardId c = Some (Card.id card)
      \/ default_marker card c = ""
         /\ defaultCardId c <> Some (Card.id card))
  /\ masked_number card
     = chalk_gray "#### " ++ chalk_gray "#### " ++ chalk_gray "#### "
       ++ Card.last4 card
  /\ ls_address card = street_line card ++ nl ++ locality_line card
  /\ line_count (street_line card) = 1
  /\ line_count (locality_line card) = 1
  /\ line_count (ls_address card) = 2.
Proof.
  intros Hfields.
  pose proof (street_line_single card Hfields) as Hstreet.
  pose proof (locality_line_single card Hfields) as Hlocality.
  split; [reflexivity |].
  split; [apply default_marker_cases |].
  split; [unfold masked_number; cbn [repeat_str];
          rewrite !string_app_assoc; reflexivity |].
  split; [apply ls_address_two_parts |].
  unfold line_count. rewrite ls_address_two_parts, !newlines_app.
  rewrite Hstreet, Hlocality. repeat split.
Qed.

Lemma ls_card_text_spec_witness :
  single_line_fields Sample.mastercard
  /\ ls_address Sample.mastercard
     = "2 High St, Apt 3." ++ nl ++ "Portland, OR, 97201. US"
  /\ line_count (ls_address Sample.mastercard) = 2.
Proof.
  assert (Hfields : single_line_fields Sample.mastercard)
    by (repeat split; reflexivity).
  split; [exact Hfields |].
  pose proof (ls_card_text_spec (P := plain) Sample.two_cards
                Sample.mastercard Hfields)
    as (_ & _ & _ & Haddress & _ & _ & Hlines).
  split; [exact Haddress | exact Hlines].
Defined.

(** C8, as it is worded: a card without [address_line2] would get an
    address of one line.  It gets two. *)
Lemma address_without_line2_takes_two_lines :
  Card.address_line2 Sample.visa = None
  /\ ls_address Sample.visa = "1 Main St." ++ nl ++ "Springfield, 12345. US"
  /\ line_count (ls_address Sample.visa) <> 1.
Proof.
  repeat split. vm_compute. discriminate.
Qed.

(** ** Removing a card *)

Lemma count_app (p : event -> bool) (t1 t2 : list event) :
  count p (t1 ++ t2)%list = count p t1 + count p t2.
Proof.
  unfold count. rewrite filter_app, length_app. reflexivity.
Qed.

Lemma asked_fetches_once {P : Presentation} (sub : string) (sh : Session)
    (args : list string) (w : World) (c : CardCollection) :
  In sub resolving ->
  count is_ls (asked sub sh args w c) = 1
  /\ count is_mutation (asked sub sh args w c) = 0.
Proof.
  intros Hsub. unfold asked.
  destruct args; each_resolving Hsub; split; reflexivity.
Qed.

(** Reads the trace off a final log that extends the log of [resolved]. *)
Lemma trace_from_resolved {P : Presentation} (w : World) (sh : Session)
    (c : CardCollection) (sub : string) (newest : list event)
    (argv : list string) (n m : nat) (r : completion unit) (p : Proc unit) :
  exec p w
  = (r, {| log := (newest ++ confirmation sub
                   :: log (resolved sub sh argv w c))%list;
           ls_calls := n;
           clock_reads := m |}) ->
  trace_of p w = (asked sub sh argv w c ++ rev newest)%list.
Proof.
  intros Hexec. unfold trace_of. rewrite Hexec. cbn [snd].
  unfold resolved. cbn [log].
  change (newest ++ confirmation sub
          :: rev (ApiLs :: resolution_trace sub sh argv w c))%list
    with (newest ++ [confirmation sub]
          ++ rev (ApiLs :: resolution_trace sub sh argv w c))%list.
  rewrite app_assoc, trace_after, rev_app_distr. unfold asked.
  cbn [rev app]. rewrite <- app_assoc. reflexivity.
Qed.

Section Removal.

Context {P : Presentation}.
Variables (w : World) (sh : Session) (c : CardCollection).
Variables (sub : string) (args : list string).
Variables (cardId : string) (deleted : Card.t).

Hypothesis removing : sub = "rm" \/ sub = "remove".
Hypothesis at_most_one : length args <= 1.
Hypothesis fetched : ls_reply w 0 = Resolved c.
Hypothesis target : resolution args w c = Some cardId.
Hypothesis target_truthy : cardId <> "".
Hypothesis listed : find (id_is cardId) (cards c) = Some deleted.
Hypothesis confirmed : promptBool_answer w = true.
Hypothesis removed : rm_reply w cardId = Resolved tt.

(** The run is the confirmation block of the rm case, entered after the
    fetch and the target resolution. *)
Lemma removal_enters_confirm_rm :
  exec (run (Some sub) (sub :: args) sh) w =
  (f <- confirm_rm cardId c sh ;; after_switch f)%monad
    w (resolved sub sh args w c).
Proof.
  assert (Hres : In sub resolving)
    by (destruct removing as [-> | ->]; simpl; tauto).
  assert (Hsome : cards c <> []).
  { intros Hnil. rewrite Hnil in listed. discriminate listed. }
  rewrite (path_reaches_confirmation w sh sub args c cardId
             Hres at_most_one fetched Hsome target target_truthy).
  destruct removing as [-> | ->]; reflexivity.
Qed.

(** The run, once the block has been evaluated to [result]. *)
Lemma removal_result (result : completion flow * State) :
  confirm_rm cardId c sh w (resolved sub sh args w c) = result ->
  exec (run (Some sub) (sub :: args) sh) w =
  match result with
  | (Done f, s') => after_switch f w s'
  | (Thrown e, s') => (Thrown e, s')
  end.
Proof.
  intros <-. rewrite removal_enters_confirm_rm. reflexivity.
Qed.

(** C3, as the code has it.  A confirmed removal of a listed card, once
    the rm request has succeeded: when the card was the default and another
    card remains, exactly one more fetch follows the rm request, and when it
    yields a collection that lists its default card, that card is reported
    by brand and last four digits; when the card was the default and none
    remains, the warning about the missing default is printed and nothing
    is fetched; when the card was not the default, nothing is fetched and
    only the deletion is reported. *)
Theorem removal_bookkeeping :
  let t := trace_of (run (Some sub) (sub :: args) sh) w in
  let tag := elapsed_at w (2 + length (resolution_trace sub sh args w c)) in
  exists after,
    t = (asked sub sh args w c ++ ApiRm cardId :: after)%list
    /\ count is_ls (asked sub sh args w c) = 1
    /\ (defaultCardId c = Some cardId ->
        others cardId c <> [] ->
        count is_ls after = 1
        /\ forall c' newDefault,
             ls_reply w 1 = Resolved c' ->
             default_of c' = Some newDefault ->
             after
             = [ ApiLs;
                 ConsoleLog
                   (success
                      ((deleted_text deleted ++ nl ++ Card.brand newDefault
                        ++ " ending in " ++ Card.last4 newDefault
                        ++ " in now default for " ++ chalk_bold (owner sh))
                       ++ " " ++ tag));
                 ApiClose ])
    /\ (defaultCardId c = Some cardId ->
        others cardId c = [] ->
        count is_ls after = 0
        /\ after
           = [ ConsoleLog
                 (success
                    ((deleted_text deleted ++ nl ++ chalk_yellow "Warning!"
                      ++ " You have no default card") ++ " " ++ tag));
               ApiClose ])
    /\ (defaultCardId c <> Some cardId ->
        count is_ls after = 0
        /\ after
           = [ConsoleLog (success (deleted_text deleted ++ " " ++ tag));
              ApiClose]).
Proof.
  intros t tag. subst t.
  assert (Hres : In sub resolving)
    by (destruct removing as [-> | ->]; simpl; tauto).
  pose proof (proj1 (asked_fetches_once sub sh args w c Hres)) as Hasked.
  assert (Hconf : confirmation sub = confirmation "rm")
    by (destruct removing as [-> | ->]; reflexivity).
  destruct (is_default cardId (defaultCardId c)) eqn:Hd.
  - apply is_default_true in Hd.
    destruct (others cardId c) as [| other rest] eqn:Hrest.
    + (* the last card *)
      eexists. split.
      * eapply (trace_from_resolved w sh c sub [_; _; _]).
        rewrite (removal_result _
                   (rm_last_default w sh c cardId (resolved sub sh args w c) deleted
                      confirmed removed listed Hd Hrest)).
        rewrite Hconf. reflexivity.
      * cbn [rev app]. split; [exact Hasked |].
        split; [intros _ Hne; contradiction Hne; reflexivity |].
        split; [intros _ _; split; reflexivity |].
        intros Hnot. contradiction.
    + (* another card remains: the list is fetched again *)
      assert (Hne : others cardId c <> []) by (rewrite Hrest; discriminate).
      destruct (ls_reply w 1) as [c' | e] eqn:Hls.
      * destruct (default_of c') as [newDefault |] eqn:Hnew.
        -- eexists. split.
           ++ eapply (trace_from_resolved w sh c sub [_; _; _; _]).
              rewrite (removal_result _
                         (rm_default_refetched w sh c cardId (resolved sub sh args w c) deleted
                            confirmed removed listed c' newDefault
                            Hd Hne Hls Hnew)).
              rewrite Hconf. reflexivity.
           ++ cbn [rev app]. split; [exact Hasked |].
              split.
              { intros _ _. split; [reflexivity |].
                intros c2 d2 [= <-] Hd2. rewrite Hnew in Hd2.
                injection Hd2 as <-. reflexivity. }
              split; [intros _ Hnil; discriminate Hnil |].
              intros Hnot. contradiction.
        -- eexists. split.
           ++ eapply (trace_from_resolved w sh c sub [_; _]).
              rewrite (removal_result _
                         (rm_default_refetch_without_default w sh c cardId
                            (resolved sub sh args w c) deleted confirmed removed listed c'
                            Hd Hne Hls Hnew)).
              rewrite Hconf. reflexivity.
           ++ cbn [rev app]. split; [exact Hasked |].
              split.
              { intros _ _. split; [reflexivity |].
                intros c2 d2 [= <-] Hd2. rewrite Hnew in Hd2.
                discriminate. }
              split; [intros _ Hnil; discriminate Hnil |].
              intros Hnot. contradiction.
      * eexists. split.
        -- eapply (trace_from_resolved w sh c sub [_; _]).
           rewrite (removal_result _
                      (rm_default_refetch_failed w sh c cardId (resolved sub sh args w c) deleted
                         confirmed removed listed e Hd Hne Hls)).
           rewrite Hconf. reflexivity.
        -- cbn [rev app]. split; [exact Hasked |].
           split.
           { intros _ _. split; [reflexivity |]. intros c2 d2 [=]. }
           split; [intros _ Hnil; discriminate Hnil |].
           intros Hnot. contradiction.
  - apply is_default_false in Hd.
    eexists. split.
    + eapply (trace_from_resolved w sh c sub [_; _; _]).
      rewrite (removal_result _
                 (rm_not_default w sh c cardId (resolved sub sh args w c) deleted
                    confirmed removed listed Hd)).
      rewrite Hconf. reflexivity.
    + cbn [rev app]. split; [exact Hasked |].
      split; [intros Hyes; contradiction |].
      split; [intros Hyes; contradiction |].
      intros _. split; reflexivity.
Qed.

End Removal.

Lemma removal_bookkeeping_witness :
  exists after,
    trace_of (run (P := plain) (Some "rm") ["rm"; "a"] Sample.ann)
             (Sample.account Sample.two_cards Sample.after_removal Abort true)
    = ([ ApiLs;
         PromptBool "Are you sure that you want to remove this card?" None;
         ApiRm "a" ] ++ after)%list
    /\ count is_ls after = 1.
Proof.
  assert (Hone : length ["a"] <= 1) by (simpl; lia).
  assert (Htruthy : "a" <> "") by discriminate.
  destruct (removal_bookkeeping (P := plain)
              (Sample.account Sample.two_cards Sample.after_removal Abort true)
              Sample.ann Sample.two_cards "rm" ["a"] "a" Sample.visa
              (or_introl eq_refl) Hone eq_refl eq_refl Htruthy eq_refl
              eq_refl eq_refl)
    as (after & Htrace & _ & Hdefault & _).
  exists after. split; [exact Htrace |].
  apply Hdefault; [reflexivity | discriminate].
Defined.

(** Removing the only card, which is the default one: the warning is
    printed, nothing is fetched again, and the process is not made to exit
    with a code of its own. *)
Example rm_only_default_card :
  let w := Sample.account Sample.one_card Sample.no_cards Abort true in
  let t := trace_of (run (P := plain) (Some "rm") ["rm"; "a"] Sample.ann) w in
  printed "You have no default card" t = true
  /\ count is_ls t = 1
  /\ exit_status t = None.
Proof.
  cbv zeta. repeat split; vm_compute; reflexivity.
Qed.

(** C3, as it is worded: whenever the removed card was the default and
    another card remains, one more fetch would be made and the new default
    card reported.  The fetch is made, but no card is reported when it
    fails, nor when the collection it yields lists no default card: the
    handler throws after the rm request, and nothing is printed about the
    deletion or a new default. *)
Lemma refetch_reports_no_new_default :
  let failing := Sample.drops_after Sample.two_cards in
  let defaultless :=
    Sample.account Sample.two_cards Sample.after_removal_no_default
                   Abort true in
  let p := run (P := plain) (Some "rm") ["rm"; "a"] Sample.ann in
  let fetched_twice :=
    [ ApiLs;
      PromptBool "Are you sure that you want to remove this card?" None;
      ApiRm "a";
      ApiLs ] in
  (defaultCardId Sample.two_cards = Some "a"
   /\ others "a" Sample.two_cards = [Sample.mastercard])
  /\ (trace_of p failing = fetched_twice
      /\ outcome_of p failing = Thrown (ApiError "Network down" true)
      /\ printed "now default" (trace_of p failing) = false)
  /\ (ls_reply defaultless 1 = Resolved Sample.after_removal_no_default
      /\ trace_of p defaultless = fetched_twice
      /\ outcome_of p defaultless
         = Thrown (TypeError "Cannot read property 'brand' of undefined")
      /\ printed "now default" (trace_of p defaultless) = false).
Proof.
  cbv zeta. repeat split; vm_compute; reflexivity.
Qed.

(** Removing the only card of an account that has no default card: the
    card was not the default, so only its deletion is reported. *)
Example last_card_without_default_gets_no_warning :
  let w := Sample.account Sample.one_card_no_default Sample.no_cards
                          Abort true in
  let t := trace_of (run (P := plain) (Some "rm") ["rm"; "a"] Sample.ann) w in
  others "a" Sample.one_card_no_default = []
  /\ t = [ ApiLs;
           PromptBool "Are you sure that you want to remove this card?" None;
           ApiRm "a";
           ConsoleLog "> Success! Visa ending in 1111 was deleted [1ms]";
           ApiClose ]
  /\ printed "You have no default card" t = false.
Proof.
  cbv zeta. repeat split; vm_compute; reflexivity.
Qed.

(** ** A card id given on the command line *)

Section ExplicitId.

Context {P : Presentation}.
Variables (w : World) (sh : Session) (c : CardCollection).
Variables (sub cardId : string) (s : State).

Hypothesis resolves : In sub resolving.

(** After a negative answer nothing precedes the question in the log but
    what was there before. *)
Lemma confirm_declined_log :
  promptBool_answer w = false ->
  exists newest r n m,
    (f <- confirm sub cardId c sh ;; after_switch f)%monad w s
    = (r, {| log := (newest ++ confirmation sub :: log s)%list;
             ls_calls := n;
             clock_reads := m |})
    /\ count is_mutation newest = 0.
Proof.
  intros Hno. cbn [bind Monad_Proc].
  each_resolving resolves; unfold confirm;
    cbn [String.eqb Ascii.eqb Bool.eqb].
  - rewrite set_default_declined by exact Hno.
    exists [], (Thrown (ReferenceError "consoel is not defined")).
    do 2 eexists. split; reflexivity.
  - rewrite rm_declined by exact Hno.
    exists [ApiClose; ConsoleLog "Aborted"], (Done tt).
    do 2 eexists. split; reflexivity.
  - rewrite rm_declined by exact Hno.
    exists [ApiClose; ConsoleLog "Aborted"], (Done tt).
    do 2 eexists. split; reflexivity.
Qed.

(** After a positive answer the mutating request comes next, whatever the
    collection holds, and it is the only one. *)
Lemma confirm_set_default_accepted_log :
  promptBool_answer w = true ->
  exists newest r n m,
    confirm_set_default cardId c w s
    = (r, {| log := (newest ++ ApiSetDefault cardId
                     :: confirmation "set-default" :: log s)%list;
             ls_calls := n;
             clock_reads := m |})
    /\ count is_mutation newest = 0.
Proof.
  intros Hyes.
  destruct (setDefault_reply w cardId) as [[] | e] eqn:Hreply.
  - destruct (find (id_is cardId) (cards c)) as [card |] eqn:Hfind.
    + rewrite (set_default_done w c cardId s card Hyes Hreply Hfind).
      eexists [_]. do 3 eexists. split; reflexivity.
    + rewrite (set_default_unlisted w c cardId s Hyes Hreply Hfind).
      exists []. do 3 eexists. split; reflexivity.
  - rewrite (set_default_rejected w c cardId s e Hyes Hreply).
    exists []. do 3 eexists. split; reflexivity.
Qed.

Lemma confirm_rm_accepted_log :
  promptBool_answer w = true ->
  exists newest r n m,
    confirm_rm cardId c sh w s
    = (r, {| log := (newest ++ ApiRm cardId
                     :: confirmation "rm" :: log s)%list;
             ls_calls := n;
             clock_reads := m |})
    /\ count is_mutation newest = 0.
Proof.
  intros Hyes.
  destruct (rm_reply w cardId) as [[] | e] eqn:Hreply.
  - destruct (find (id_is cardId) (cards c)) as [card |] eqn:Hfind.
    + destruct (is_default cardId (defaultCardId c)) eqn:Hd.
      * apply is_default_true in Hd.
        destruct (others cardId c) as [| other rest] eqn:Hrest.
        -- rewrite (rm_last_default w sh c cardId s card Hyes Hreply Hfind
                      Hd Hrest).
           eexists [_]. do 3 eexists. split; reflexivity.
        -- assert (Hne : others cardId c <> [])
             by (rewrite Hrest; discriminate).
           destruct (ls_reply w (ls_calls s)) as [c' | e] eqn:Hls.
           ++ destruct (default_of c') as [newDefault |] eqn:Hnew.
              ** rewrite (rm_default_refetched w sh c cardId s card Hyes
                            Hreply Hfind c' newDefault Hd Hne Hls Hnew).
                 eexists [_; _]. do 3 eexists. split; reflexivity.
              ** rewrite (rm_default_refetch_without_default w sh c cardId s
                            card Hyes Hreply Hfind c' Hd Hne Hls Hnew).
                 eexists [_]. do 3 eexists. split; reflexivity.
           ++ rewrite (rm_default_refetch_failed w sh c cardId s card Hyes
                         Hreply Hfind e Hd Hne Hls).
              eexists [_]. do 3 eexists. split; reflexivity.
      * apply is_default_false in Hd.
        rewrite (rm_not_default w sh c cardId s card Hyes Hreply Hfind Hd).
        eexists [_]. do 3 eexists. split; reflexivity.
    + rewrite (rm_unlisted w sh c cardId s Hyes Hreply Hfind).
      exists []. do 3 eexists. split; reflexivity.
  - rewrite (rm_rejected w sh c cardId s e Hyes Hreply).
    exists []. do 3 eexists. split; reflexivity.
Qed.

(** Leaving the switch adds at most the closing of the client. *)
Lemma after_switch_log (p : Proc flow) (w' : World) (s0 : State)
    (older : list event) :
  (exists newest r n m,
      p w' s0 = (r, {| log := (newest ++ older)%list;
                       ls_calls := n;
                       clock_reads := m |})
      /\ count is_mutation newest = 0) ->
  exists newest r n m,
    (f <- p ;; after_switch f)%monad w' s0
    = (r, {| log := (newest ++ older)%list;
             ls_calls := n;
             clock_reads := m |})
    /\ count is_mutation newest = 0.
Proof.
  intros (newest & r & n & m & Hp & Hnone). cbn [bind Monad_Proc].
  rewrite Hp. destruct r as [[|] | e].
  - exists (ApiClose :: newest). do 3 eexists. split; [reflexivity |].
    exact Hnone.
  - exists newest. do 3 eexists. split; [reflexivity | exact Hnone].
  - exists newest. do 3 eexists. split; [reflexivity | exact Hnone].
Qed.

Lemma confirm_accepted_log :
  promptBool_answer w = true ->
  exists newest r n m,
    (f <- confirm sub cardId c sh ;; after_switch f)%monad w s
    = (r, {| log := (newest ++ mutation sub cardId
                     :: confirmation sub :: log s)%list;
             ls_calls := n;
             clock_reads := m |})
    /\ count is_mutation newest = 0.
Proof.
  intros Hyes. apply after_switch_log.
  each_resolving resolves; unfold confirm, mutation;
    cbn [String.eqb Ascii.eqb Bool.eqb].
  - exact (confirm_set_default_accepted_log Hyes).
  - exact (confirm_rm_accepted_log Hyes).
  - exact (confirm_rm_accepted_log Hyes).
Qed.

End ExplicitId.

(** C4, as the code has it.  [set-default], [rm] and [remove] given one
    positional argument that is not the empty string, over a collection
    that is not empty: the yes/no question follows the fetch directly,
    whether or not a card has that id; after a positive answer the mutating
    request is made with the id as given; and when that request succeeds
    for an id that no card has, the lookup made for the report finds
    nothing and the handler throws instead of printing anything. *)
Theorem explicit_id_not_validated {P : Presentation} (w : World)
    (sh : Session) (c : CardCollection) (sub cardId : string) :
  In sub resolving ->
  cardId <> "" ->
  ls_reply w 0 = Resolved c ->
  cards c <> [] ->
  let p := run (Some sub) [sub; cardId] sh in
  firstn 2 (trace_of p w) = [ApiLs; confirmation sub]
  /\ (promptBool_answer w = true ->
      firstn 3 (trace_of p w)
      = [ApiLs; confirmation sub; mutation sub cardId]
      /\ (mutation_reply w sub cardId = Resolved tt ->
          find (id_is cardId) (cards c) = None ->
          trace_of p w = [ApiLs; confirmation sub; mutation sub cardId]
          /\ outcome_of p w
             = Thrown (TypeError "Cannot read property 'brand' of undefined"))).
Proof.
  intros Hsub Hid Hls Hc p. subst p.
  assert (Hone : length [cardId] <= 1) by (simpl; lia).
  pose proof (path_reaches_confirmation w sh sub [cardId] c cardId
                Hsub Hone Hls Hc eq_refl Hid) as Hreach.
  assert (Haccepted :
            promptBool_answer w = true ->
            exists rest,
              trace_of (run (Some sub) [sub; cardId] sh) w
              = ([ApiLs; confirmation sub; mutation sub cardId] ++ rest)%list).
  { intros Hyes.
    destruct (confirm_accepted_log w sh c sub cardId
                (resolved sub sh [cardId] w c) Hsub Hyes)
      as (newest & r & n & m & Hlog & _).
    rewrite <- Hreach in Hlog.
    change (newest ++ mutation sub cardId :: ?l)%list
      with (newest ++ [mutation sub cardId] ++ l)%list in Hlog.
    rewrite app_assoc in Hlog.
    rewrite (trace_from_resolved w sh c sub _ _ _ _ _ _ Hlog).
    rewrite rev_app_distr. exists (rev newest). reflexivity. }
  split.
  - destruct (promptBool_answer w) eqn:Hanswer.
    + destruct (Haccepted eq_refl) as (rest & ->). reflexivity.
    + destruct (confirm_declined_log w sh c sub cardId
                  (resolved sub sh [cardId] w c) Hsub Hanswer)
        as (newest & r & n & m & Hlog & _).
      rewrite <- Hreach in Hlog.
      rewrite (trace_from_resolved w sh c sub _ _ _ _ _ _ Hlog).
      reflexivity.
  - intros Hyes. split.
    + destruct (Haccepted Hyes) as (rest & ->). reflexivity.
    + intros Hreply Hfind. unfold trace_of, outcome_of. rewrite Hreach.
      cbn [bind Monad_Proc].
      each_resolving Hsub; unfold confirm, mutation_reply in *;
        cbn [String.eqb Ascii.eqb Bool.eqb] in *.
      * rewrite (set_default_unlisted w c cardId _ Hyes Hreply Hfind).
        split; reflexivity.
      * rewrite (rm_unlisted w sh c cardId _ Hyes Hreply Hfind).
        split; reflexivity.
      * rewrite (rm_unlisted w sh c cardId _ Hyes Hreply Hfind).
        split; reflexivity.
Qed.

Lemma explicit_id_not_validated_witness :
  find (id_is "zzz") (cards Sample.two_cards) = None
  /\ trace_of (run (P := plain) (Some "rm") ["rm"; "zzz"] Sample.ann)
              (Sample.account Sample.two_cards Sample.two_cards Abort true)
     = [ ApiLs;
         PromptBool "Are you sure that you want to remove this card?" None;
         ApiRm "zzz" ]
  /\ outcome_of (run (P := plain) (Some "rm") ["rm"; "zzz"] Sample.ann)
                (Sample.account Sample.two_cards Sample.two_cards Abort true)
     = Thrown (TypeError "Cannot read property 'brand' of undefined").
Proof.
  assert (Hsub : In "rm" resolving) by (right; left; reflexivity).
  assert (Hid : "zzz" <> "") by discriminate.
  assert (Hc : cards Sample.two_cards <> []) by discriminate.
  split; [reflexivity |].
  exact (proj2 (proj2 (explicit_id_not_validated (P := plain)
                         (Sample.account Sample.two_cards Sample.two_cards
                                         Abort true)
                         Sample.ann Sample.two_cards "rm" "zzz"
                         Hsub Hid eq_refl Hc) eq_refl) eq_refl eq_refl).
Defined.

(** C4, as it is worded: every single positional argument would lead to
    the confirmation.  The empty string is such an argument, and it is
    treated like an aborted selection: nothing is asked. *)
Lemma empty_argument_is_not_confirmed :
  let w := Sample.account Sample.two_cards Sample.two_cards Abort true in
  let t := trace_of (run (P := plain) (Some "set-default")
                         ["set-default"; ""] Sample.ann) w in
  length (skipn 1 ["set-default"; ""]) = 1
  /\ t = [ApiLs; ConsoleLog "No changes made"; ApiClose]
  /\ count is_confirmation t = 0
  /\ count is_mutation t = 0.
Proof.
  cbv zeta. repeat split.
Qed.

(** ** Which card a mutating request names *)

Lemma count_zero_In (p : event -> bool) (t : list event) (e : event) :
  count p t = 0 -> In e t -> p e = false.
Proof.
  unfold count. induction t as [| x t IH]; intros Hzero Hin.
  - destruct Hin.
  - cbn [filter] in Hzero. destruct (p x) eqn:Hx; [discriminate Hzero |].
    destruct Hin as [<- | Hin]; [exact Hx | exact (IH Hzero Hin)].
Qed.

Section Targets.

Context {P : Presentation}.
Variables (w : World) (sh : Session) (c : CardCollection).
Variables (sub : string) (args : list string).

Hypothesis resolves : In sub resolving.
Hypothesis at_most_one : length args <= 1.
Hypothesis fetched : ls_reply w 0 = Resolved c.
Hypothesis some_cards : cards c <> [].

(** No card id, or an empty one: nothing is asked and nothing changes. *)
Lemma path_no_target :
  truthy (resolution args w c) = false ->
  trace_of (run (Some sub) (sub :: args) sh) w
  = (ApiLs :: resolution_trace sub sh args w c
     ++ [ConsoleLog "No changes made"; ApiClose])%list.
Proof.
  intros Hfalsy. pose proof (nonempty_length _ some_cards) as Hlen.
  destruct args as [| a [| b rest]]; [ | | simpl in at_most_one; lia].
  - unfold resolution in Hfalsy. cbn [nth_error] in Hfalsy.
    assert (Hval : forall i,
               option_map Choice.value (nth_error (buildInquirerChoices c) i)
               = option_map Card.id (nth_error (cards c) i)).
    { intros i. unfold buildInquirerChoices. rewrite nth_error_map.
      destruct (nth_error (cards c) i); reflexivity. }
    each_resolving resolves; unfold trace_of, exec, run, after_switch,
      case_set_default, case_rm, fetch_cards, creditCards_ls,
      creditCards_close, listInput, elapsed_since, new_Date, console_log,
      emit, world, await, initial;
      cbn -[Nat.eqb truthy js_or]; rewrite fetched;
      cbn -[Nat.eqb truthy js_or]; rewrite Hlen; cbn -[truthy js_or];
      destruct (listInput_answer w) as [| i]; cbn -[truthy js_or];
      rewrite ?Hval, Hfalsy; reflexivity.
  - unfold resolution in Hfalsy. cbn [nth_error] in Hfalsy.
    each_resolving resolves; unfold trace_of, exec, run, after_switch,
      case_set_default, case_rm, fetch_cards, creditCards_ls,
      creditCards_close, new_Date, console_log, emit, world, await, initial;
      cbn -[Nat.eqb truthy js_or]; rewrite fetched;
      cbn -[Nat.eqb truthy js_or]; rewrite Hlen; cbn -[truthy js_or];
      rewrite Hfalsy; reflexivity.
Qed.

(** The only mutating request of a run names the card id that the target
    resolution arrived at. *)
Lemma only_mutation_is_the_target (cardId : string) (e : event) :
  resolution args w c = Some cardId ->
  cardId <> "" ->
  In e (trace_of (run (Some sub) (sub :: args) sh) w) ->
  is_mutation e = true ->
  e = mutation sub cardId.
Proof.
  intros Htarget Hid Hin Hmut.
  pose proof (path_reaches_confirmation w sh sub args c cardId
                resolves at_most_one fetched some_cards Htarget Hid)
    as Hreach.
  pose proof (proj2 (asked_fetches_once sub sh args w c resolves)) as Hasked.
  destruct (promptBool_answer w) eqn:Hanswer.
  - destruct (confirm_accepted_log w sh c sub cardId
                (resolved sub sh args w c) resolves Hanswer)
      as (newest & r & n & m & Hlog & Hnone).
    rewrite <- Hreach in Hlog.
    change (newest ++ mutation sub cardId :: ?l)%list
      with (newest ++ [mutation sub cardId] ++ l)%list in Hlog.
    rewrite app_assoc in Hlog.
    rewrite (trace_from_resolved w sh c sub _ _ _ _ _ _ Hlog) in Hin.
    rewrite rev_app_distr in Hin. cbn [rev app] in Hin.
    apply in_app_or in Hin. destruct Hin as [Hin | [Heq | Hin]].
    + rewrite (count_zero_In _ _ _ Hasked Hin) in Hmut. discriminate.
    + symmetry. exact Heq.
    + apply in_rev in Hin.
      rewrite (count_zero_In _ _ _ Hnone Hin) in Hmut. discriminate.
  - destruct (confirm_declined_log w sh c sub cardId
                (resolved sub sh args w c) resolves Hanswer)
      as (newest & r & n & m & Hlog & Hnone).
    rewrite <- Hreach in Hlog.
    rewrite (trace_from_resolved w sh c sub _ _ _ _ _ _ Hlog) in Hin.
    apply in_app_or in Hin. destruct Hin as [Hin | Hin].
    + rewrite (count_zero_In _ _ _ Hasked Hin) in Hmut. discriminate.
    + apply in_rev in Hin.
      rewrite (count_zero_In _ _ _ Hnone Hin) in Hmut. discriminate.
Qed.

End Targets.

(** Without an argument, a mutating request can only name a card of the
    fetched collection. *)
Lemma picked_target_is_listed {P : Presentation} (w : World) (sh : Session)
    (c : CardCollection) (sub : string) (e : event) :
  In sub resolving ->
  ls_reply w 0 = Resolved c ->
  In e (trace_of (run (Some sub) [sub] sh) w) ->
  is_mutation e = true ->
  exists card, In card (cards c) /\ e = mutation sub (Card.id card).
Proof.
  intros Hsub Hls Hin Hmut.
  assert (Hzero : length (@nil string) <= 1) by (simpl; lia).
  destruct (cards c) as [| card0 rest] eqn:Hcards.
  - unfold trace_of in Hin.
    rewrite (path_no_cards w sh sub [] c Hsub Hzero Hls Hcards) in Hin.
    assert (Hnone : is_mutation e = false).
    { cbn in Hin. destruct Hin as [<- | [<- | [<- | []]]]; reflexivity. }
    rewrite Hnone in Hmut. discriminate.
  - assert (Hsome : cards c <> []) by (rewrite Hcards; discriminate).
    destruct (truthy (resolution [] w c)) eqn:Htruthy.
    + destruct (resolution [] w c) as [cardId |] eqn:Htarget;
        [| discriminate].
      assert (Hid : cardId <> "").
      { intros ->. discriminate. }
      rewrite (only_mutation_is_the_target w sh c sub [] Hsub Hzero Hls
                 Hsome cardId e Htarget Hid Hin Hmut).
      unfold resolution in Htarget. cbn [nth_error] in Htarget.
      destruct (listInput_answer w) as [| i]; [discriminate |].
      destruct (nth_error (cards c) i) as [card |] eqn:Hnth;
        [| discriminate].
      injection Htarget as <-. exists card.
      rewrite <- Hcards. split; [exact (nth_error_In _ _ Hnth) | reflexivity].
    + rewrite (path_no_target w sh c sub [] Hsub Hzero Hls Hsome Htruthy)
        in Hin.
      assert (Hnone : is_mutation e = false).
      { cbn in Hin. destruct Hin as [<- | [<- | [<- | [<- | []]]]];
          reflexivity. }
      rewrite Hnone in Hmut. discriminate.
Qed.

(** * Further properties of the command *)

(** ** A logic of weights *)

Lemma total_app (weight : event -> nat) (t1 t2 : list event) :
  total weight (t1 ++ t2) = total weight t1 + total weight t2.
Proof.
  induction t1 as [| e t1 IH]; cbn [app total]; [reflexivity |].
  rewrite IH. lia.
Qed.

Lemma total_rev (weight : event -> nat) (t : list event) :
  total weight (rev t) = total weight t.
Proof.
  induction t as [| e t IH]; cbn [rev total]; [reflexivity |].
  rewrite total_app, IH. cbn [total]. lia.
Qed.

Lemma count_total (q : event -> bool) (t : list event) :
  count q t = total (one_for q) t.
Proof.
  unfold count. induction t as [| e t IH]; cbn [filter total]; [reflexivity |].
  unfold one_for at 1. destruct (q e); cbn [length]; rewrite IH; reflexivity.
Qed.

Section Weights.

Variable weight : event -> nat.
Variable w : World.

Lemma costs_weaken {A : Type} (p : Proc A) (n m : nat) :
  costs weight w p n -> n <= m -> costs weight w p m.
Proof.
  intros Hp Hle s. destruct (Hp s) as (newest & Hlog & Hsum).
  exists newest. split; [exact Hlog | lia].
Qed.

Lemma costs_ret {A : Type} (a : A) (n : nat) : costs weight w (ret a) n.
Proof. intros s. exists []. split; [reflexivity | cbn; lia]. Qed.

Lemma costs_raise {A : Type} (e : jsError) (n : nat) :
  costs weight w (raise e : Proc A) n.
Proof. intros s. exists []. split; [reflexivity | cbn; lia]. Qed.

Lemma costs_world (n : nat) : costs weight w world n.
Proof. intros s. exists []. split; [reflexivity | cbn; lia]. Qed.

Lemma costs_new_Date (n : nat) : costs weight w new_Date n.
Proof. intros s. exists []. split; [reflexivity | cbn; lia]. Qed.

Lemma costs_await {A : Type} (r : reply A) (n : nat) :
  costs weight w (await r) n.
Proof.
  intros s. exists []. destruct r; split; try reflexivity; cbn; lia.
Qed.

Lemma costs_emit (e : event) (n : nat) :
  weight e <= n -> costs weight w (emit e) n.
Proof.
  intros Hle s. exists [e]. split; [reflexivity | cbn; lia].
Qed.

Lemma costs_ls (n : nat) :
  weight ApiLs <= n -> costs weight w creditCards_ls n.
Proof.
  intros Hle s. exists [ApiLs]. unfold creditCards_ls.
  destruct (ls_reply w (ls_calls s)); (split; [reflexivity | cbn; lia]).
Qed.

Lemma costs_bind {A B : Type} (p : Proc A) (k : A -> Proc B) (n m N : nat) :
  costs weight w p n ->
  (forall a, costs weight w (k a) m) ->
  n + m <= N ->
  costs weight w (bind p k) N.
Proof.
  intros Hp Hk Hle s. cbn [bind Monad_Proc].
  destruct (Hp s) as (first & Hfirst & Hn).
  destruct (p w s) as [[a | e] s1]; cbn [snd] in Hfirst.
  - destruct (Hk a s1) as (second & Hsecond & Hm).
    exists (second ++ first)%list. rewrite Hsecond, Hfirst, total_app.
    split; [apply app_assoc | lia].
  - exists first. split; [exact Hfirst | lia].
Qed.

Lemma costs_catch {A : Type} (p : Proc A) (h : jsError -> Proc A)
    (n m N : nat) :
  costs weight w p n ->
  (forall e, costs weight w (h e) m) ->
  n + m <= N ->
  costs weight w (catch p h) N.
Proof.
  intros Hp Hh Hle s. cbn [catch MonadExc_Proc].
  destruct (Hp s) as (first & Hfirst & Hn).
  destruct (p w s) as [[a | e] s1]; cbn [snd] in Hfirst.
  - exists first. split; [exact Hfirst | lia].
  - destruct (Hh e s1) as (second & Hsecond & Hm).
    exists (second ++ first)%list. rewrite Hsecond, Hfirst, total_app.
    split; [apply app_assoc | lia].
Qed.

(** The yes/no prompt hands the answer of the world to what follows. *)
Lemma costs_promptBool {B : Type} (label : string) (trailing : option string)
    (k : bool -> Proc B) (m N : nat) :
  costs weight w (k (promptBool_answer w)) m ->
  weight (PromptBool label trailing) + m <= N ->
  costs weight w (bind (promptBool label trailing) k) N.
Proof.
  intros Hk Hle s. cbn [bind Monad_Proc]. unfold promptBool, emit, world.
  cbn.
  match goal with
  | |- context [k _ w ?s1] => destruct (Hk s1) as (second & Hsecond & Hm)
  end.
  exists (second ++ [PromptBool label trailing])%list.
  rewrite Hsecond, total_app. cbn [log total].
  split; [rewrite <- app_assoc; reflexivity | lia].
Qed.

(** What a bound on the weight says about the trace of a run. *)
Lemma costs_trace {A : Type} (p : Proc A) (n : nat) :
  costs weight w p n -> total weight (trace_of p w) <= n.
Proof.
  intros Hp. destruct (Hp initial) as (newest & Hlog & Hsum).
  unfold trace_of, exec, trace. rewrite Hlog, total_rev, total_app.
  cbn. lia.
Qed.

End Weights.

Lemma costs_count {A : Type} (q : event -> bool) (w : World) (p : Proc A)
    (n : nat) :
  costs (one_for q) w p n -> count q (trace_of p w) <= n.
Proof.
  intros Hp. rewrite count_total. exact (costs_trace _ _ _ _ Hp).
Qed.

(** Unfolds the script down to the primitives that the weight rules know. *)
Ltac unfold_blocks :=
  unfold main, run, after_switch, case_ls, case_set_default, case_rm,
    case_add, case_default, confirm, confirm_set_default, confirm_rm,
    fetch_cards, creditCards_setDefault, creditCards_rm, creditCards_close,
    addBilling, listInput, consoel_log, elapsed_since, console_log,
    console_error, help, exit.

(** Proves a bound on the weight of an unfolded script: every [bind] gives
    the least budget to its first part that this part can do with, and the
    rest to what follows; every [match] is split into its cases. *)
Ltac costs_auto :=
  cbv zeta;
  lazymatch goal with
  | |- costs _ _ (ret _) _ => apply costs_ret
  | |- costs _ _ (raise _) _ => apply costs_raise
  | |- costs _ _ world _ => apply costs_world
  | |- costs _ _ new_Date _ => apply costs_new_Date
  | |- costs _ _ (await _) _ => apply costs_await
  | |- costs _ _ creditCards_ls _ => apply costs_ls; cbn; lia
  | |- costs _ _ (emit _) _ => apply costs_emit; cbn; lia
  | |- costs _ _ (bind (promptBool _ _) _) ?N =>
      first [ solve [ eapply (costs_promptBool _ _ _ _ _ N);
                      [ costs_answer | cbn; lia ] ]
            | match N with
              | S ?M => solve [ eapply (costs_promptBool _ _ _ _ _ M);
                                [ costs_answer | cbn; lia ] ]
              end ]
  | |- costs _ _ (bind _ _) ?N =>
      first [ solve [ eapply (costs_bind _ _ _ _ 0 N);
                      [ costs_auto | intros; costs_auto | cbn; lia ] ]
            | match N with
              | S ?M => solve [ eapply (costs_bind _ _ _ _ 1 M);
                                [ costs_auto | intros; costs_auto | cbn; lia ] ]
              end
            | match N with
              | S (S ?M) =>
                  solve [ eapply (costs_bind _ _ _ _ 2 M);
                          [ costs_auto | intros; costs_auto | cbn; lia ] ]
              end ]
  | |- costs _ _ (catch _ _) ?N =>
      first [ solve [ eapply (costs_catch _ _ _ _ 0 N);
                      [ costs_auto | intros; costs_auto | cbn; lia ] ]
            | match N with
              | S ?M => solve [ eapply (costs_catch _ _ _ _ 1 M);
                                [ costs_auto | intros; costs_auto | cbn; lia ] ]
              end
            | match N with
              | S (S ?M) =>
                  solve [ eapply (costs_catch _ _ _ _ 2 M);
                          [ costs_auto | intros; costs_auto | cbn; lia ] ]
              end ]
  | |- costs _ _ (match ?x with _ => _ end) _ => destruct x; costs_auto
  end
with costs_answer :=
  try match goal with
      | H : promptBool_answer _ = _ |- _ => rewrite H; cbn [negb]
      end;
  costs_auto.

(** ** What no run of the command does *)

Section Never.

Context {P : Presentation}.
Variables (w : World) (sh : Session).
Variables (help_flag : bool) (subcommand : option string).
Variable argv_ : list string.

(** X1.  Whatever the arguments, the replies of the API and the answers of
    the user, the command makes at most one mutating request. *)
Theorem at_most_one_mutation :
  count is_mutation (trace_of (run subcommand argv_ sh) w) <= 1
  /\ count is_mutation (trace_of (main help_flag argv_ sh) w) <= 1.
Proof.
  split; apply costs_count; unfold_blocks; costs_auto.
Qed.

(** X2.  When the user answers the yes/no question with no, the command
    makes no mutating request, whatever else happens. *)
Theorem declined_never_mutates :
  promptBool_answer w = false ->
  count is_mutation (trace_of (run subcommand argv_ sh) w) = 0
  /\ count is_mutation (trace_of (main help_flag argv_ sh) w) = 0.
Proof.
  intros Hno.
  assert (Hrun : costs (one_for is_mutation) w (run subcommand argv_ sh) 0)
    by (unfold_blocks; costs_auto).
  assert (Hmain : costs (one_for is_mutation) w (main help_flag argv_ sh) 0)
    by (unfold_blocks; costs_auto).
  apply costs_count in Hrun. apply costs_count in Hmain. lia.
Qed.

(** X3.  Whenever the command asks the process to exit, it does so with
    code 0 or 1. *)
Theorem exits_with_zero_or_one :
  forall code : Z,
    In (Exit code) (trace_of (main help_flag argv_ sh) w) ->
    code = 0%Z \/ code = 1%Z.
Proof.
  intros code Hin.
  assert (Hodd : costs (one_for is_odd_exit) w (main help_flag argv_ sh) 0)
    by (unfold_blocks; costs_auto).
  apply costs_count in Hodd.
  assert (Hzero : count is_odd_exit (trace_of (main help_flag argv_ sh) w) = 0)
    by lia.
  pose proof (count_zero_In _ _ _ Hzero Hin) as Hcode. cbn in Hcode.
  apply negb_false_iff, orb_true_iff in Hcode.
  destruct Hcode as [H0 | H1]; [left | right]; apply Z.eqb_eq; assumption.
Qed.

(** X4.  The list prompt and the yes/no question are each shown at most
    once, and the card list is fetched at most twice. *)
Theorem prompts_once_fetches_twice :
  count is_list_prompt (trace_of (main help_flag argv_ sh) w) <= 1
  /\ count is_confirmation (trace_of (main help_flag argv_ sh) w) <= 1
  /\ count is_ls (trace_of (main help_flag argv_ sh) w) <= 2.
Proof.
  repeat split; apply costs_count; unfold_blocks; costs_auto.
Qed.

End Never.

(** ** Closing the client, fetching the list *)

Lemma run_is_dispatch {P : Presentation} (subcommand : option string)
    (argv_ : list string) (sh : Session) (w : World) (s : State) :
  run subcommand argv_ sh w s
  = (f <- dispatch subcommand (skipn 1 argv_)
                   (clock w (clock_reads s)) sh ;;
     after_switch f)%monad
      w {| log := log s;
           ls_calls := ls_calls s;
           clock_reads := S (clock_reads s) |}.
Proof. reflexivity. Qed.

Lemma dispatch_never_closes {P : Presentation} (w : World)
    (subcommand : option string) (args : list string) (start : Z)
    (sh : Session) :
  costs (one_for is_close) w (dispatch subcommand args start sh) 0.
Proof.
  unfold dispatch. unfold_blocks. costs_auto.
Qed.

Lemma handler_of_remove (sub : string) :
  handler_of sub = Some HRemove -> sub = "rm" \/ sub = "remove".
Proof.
  unfold handler_of.
  repeat match goal with
         | |- context [String.eqb sub ?lit] =>
             destruct (String.eqb_spec sub lit) as [-> | _];
             [intros [=]; tauto | ]
         end.
  discriminate.
Qed.

Lemma handler_of_resolving (sub : string) :
  handler_of sub = Some HSetDefault \/ handler_of sub = Some HRemove ->
  In sub resolving.
Proof.
  unfold handler_of, resolving.
  repeat match goal with
         | |- context [String.eqb sub ?lit] =>
             destruct (String.eqb_spec sub lit) as [-> | _];
             [intros [[=] | [=]]; simpl; tauto | ]
         end.
  intros [[=] | [=]].
Qed.

(** X5.  The client is closed at most once in a run, and when it is,
    nothing happens after that. *)
Theorem closes_at_most_once_at_the_end {P : Presentation} (w : World)
    (sh : Session) (subcommand : option string) (argv_ : list string) :
  exists t,
    count is_close t = 0
    /\ (trace_of (run subcommand argv_ sh) w = t
        \/ trace_of (run subcommand argv_ sh) w = (t ++ [ApiClose])%list).
Proof.
  unfold trace_of, exec. rewrite run_is_dispatch. cbn [bind Monad_Proc].
  match goal with
  | |- context [dispatch ?sub ?args ?start sh w ?s1] =>
      destruct (dispatch_never_closes w sub args start sh s1)
        as (newest & Hlog & Hsum);
      destruct (dispatch sub args start sh w s1) as [[[|] | e] s2]
  end;
    cbn [snd] in Hlog; cbn [log initial] in Hlog; rewrite app_nil_r in Hlog;
    exists (rev newest);
    (split; [rewrite count_total, total_rev; lia |]).
  - right. unfold after_switch, creditCards_close, emit, trace.
    cbn [snd log rev]. rewrite Hlog. reflexivity.
  - left. unfold trace. cbn. rewrite Hlog. reflexivity.
  - left. unfold trace. cbn. rewrite Hlog. reflexivity.
Qed.

(** X6.  Only [rm] and [remove] can fetch the card list a second time:
    any other subcommand fetches it at most once. *)
Theorem only_rm_fetches_twice {P : Presentation} (w : World) (sh : Session)
    (sub : string) (argv_ : list string) :
  sub <> "rm" ->
  sub <> "remove" ->
  count is_ls (trace_of (run (Some sub) argv_ sh) w) <= 1.
Proof.
  intros Hrm Hremove. apply costs_count. unfold run. cbn [option_map].
  destruct (handler_of sub) as [[] |] eqn:Hhandler;
    try (unfold_blocks; costs_auto).
  destruct (handler_of_remove sub Hhandler); contradiction.
Qed.

Lemma only_rm_fetches_twice_witness :
  "set-default" <> "rm"
  /\ "set-default" <> "remove"
  /\ count is_ls
       (trace_of (run (P := plain) (Some "set-default")
                      ["set-default"; "a"] Sample.ann)
                 (Sample.account Sample.two_cards Sample.two_cards Abort true))
     <= 1.
Proof.
  assert (H1 : "set-default" <> "rm") by discriminate.
  assert (H2 : "set-default" <> "remove") by discriminate.
  split; [exact H1 | split; [exact H2 |]].
  exact (only_rm_fetches_twice (P := plain)
           (Sample.account Sample.two_cards Sample.two_cards Abort true)
           Sample.ann "set-default" ["set-default"; "a"] H1 H2).
Defined.

Lemma declined_never_mutates_witness :
  promptBool_answer
    (Sample.account Sample.two_cards Sample.two_cards (Pick 1) false) = false
  /\ count is_mutation
       (trace_of (main (P := plain) false ["rm"] Sample.ann)
                 (Sample.account Sample.two_cards Sample.two_cards
                                 (Pick 1) false))
     = 0.
Proof.
  split; [reflexivity |].
  exact (proj2 (declined_never_mutates (P := plain)
                  (Sample.account Sample.two_cards Sample.two_cards
                                  (Pick 1) false)
                  Sample.ann false (Some "rm") ["rm"] eq_refl)).
Defined.

Lemma exits_with_zero_or_one_witness :
  In (Exit 1)
     (trace_of (main (P := plain) false ["rm"; "a"; "b"] Sample.ann)
               Sample.offline)
  /\ (1 = 0 \/ 1 = 1)%Z.
Proof.
  assert (Hin : In (Exit 1)
                   (trace_of (main (P := plain) false ["rm"; "a"; "b"]
                                   Sample.ann)
                             Sample.offline))
    by (right; left; reflexivity).
  split; [exact Hin |].
  exact (exits_with_zero_or_one (P := plain) Sample.offline Sample.ann false
           ["rm"; "a"; "b"] 1%Z Hin).
Defined.

(** ** The list handler, in full *)

Lemma newlines_positive_nonempty (s : string) : 0 < newlines s -> s <> "".
Proof. intros Hpos ->. cbn in Hpos. lia. Qed.

(** A card takes at least four lines of the list. *)
Lemma ls_card_text_lines {P : Presentation} (c : CardCollection)
    (card : Card.t) :
  3 <= newlines (ls_card_text c card).
Proof.
  unfold ls_card_text. cbv zeta. cbn [String.concat].
  rewrite !newlines_app. change (newlines nl) with 1. lia.
Qed.

Lemma ls_text_lines {P : Presentation} (c : CardCollection) :
  cards c <> [] -> 3 <= newlines (ls_text c).
Proof.
  unfold ls_text. destruct (cards c) as [| card rest]; [congruence |].
  intros _. cbn [map String.concat].
  pose proof (ls_card_text_lines c card) as Hcard.
  destruct (map (ls_card_text c) rest); [exact Hcard |].
  rewrite newlines_app. lia.
Qed.

Section Listing.

Context {P : Presentation}.
Variables (w : World) (sh : Session).
Variables (sub : string) (args : list string).

Hypothesis listing : sub = "ls" \/ sub = "list".

(** The trace of the list handler after a fetch that succeeded. *)
Lemma path_ls_succeeded (c : CardCollection) :
  ls_reply w 0 = Resolved c ->
  trace_of (run (Some sub) (sub :: args) sh) w
  = ([ApiLs; ConsoleLog (ls_header c sh (ms (clock w 1 - clock w 0)))]
     ++ match cards c with
        | [] => []
        | _ :: _ => [ConsoleLog (nl ++ ls_text c ++ nl)]
        end
     ++ [ApiClose])%list.
Proof.
  intros Hls.
  destruct (cards c) as [| card rest] eqn:Hcards.
  - assert (Htext : ls_text c = "") by (unfold ls_text; rewrite Hcards;
                                        reflexivity).
    destruct listing as [-> | ->]; unfold_script; cbn -[ls_text];
      rewrite Hls; cbn -[ls_text]; rewrite Htext; reflexivity.
  - assert (Hne : cards c <> []) by (rewrite Hcards; discriminate).
    assert (Htext : ls_text c <> "").
    { apply newlines_positive_nonempty.
      pose proof (ls_text_lines c Hne). lia. }
    rewrite (path_ls_listed w sh sub args c listing Hls Htext).
    reflexivity.
Qed.

(** X7.  The list handler ignores its arguments.  After a successful fetch
    it prints the header with the number of cards and the owner, then the
    cards if there are any (a block of at least four lines), and closes the
    client; for an empty collection only the header is printed. *)
Theorem list_handler_output (c : CardCollection) :
  ls_reply w 0 = Resolved c ->
  trace_of (run (Some sub) (sub :: args) sh) w
  = ([ApiLs; ConsoleLog (ls_header c sh (ms (clock w 1 - clock w 0)))]
     ++ match cards c with
        | [] => []
        | _ :: _ => [ConsoleLog (nl ++ ls_text c ++ nl)]
        end
     ++ [ApiClose])%list
  /\ (cards c <> [] -> 3 <= newlines (ls_text c))
  /\ exit_status (trace_of (run (Some sub) (sub :: args) sh) w) = None.
Proof.
  intros Hls. rewrite (path_ls_succeeded c Hls).
  split; [reflexivity |]. split; [apply ls_text_lines |].
  destruct (cards c); reflexivity.
Qed.

(** X8.  Listing is read-only: whatever the API replies, the list handler
    fetches the card list exactly once, makes no mutating request, shows
    no prompt and never asks the process to exit. *)
Theorem listing_is_read_only :
  let t := trace_of (run (Some sub) (sub :: args) sh) w in
  count is_ls t = 1
  /\ count is_mutation t = 0
  /\ count is_prompt t = 0
  /\ count is_exit t = 0.
Proof.
  intros t. subst t.
  destruct (ls_reply w 0) as [c | e] eqn:Hls.
  - rewrite (path_ls_succeeded c Hls).
    destruct (cards c); repeat split.
  - unfold trace_of.
    rewrite (path_ls_fetch_failed w sh sub args e listing Hls).
    repeat split.
Qed.

End Listing.

Lemma list_handler_output_witness :
  trace_of (run (P := plain) (Some "list") ["list"; "ignored"] Sample.ann)
           (Sample.account Sample.no_cards Sample.no_cards Abort true)
  = [ApiLs; ConsoleLog "> 0 cards found under ann [1ms]"; ApiClose].
Proof.
  exact (proj1 (list_handler_output (P := plain)
                  (Sample.account Sample.no_cards Sample.no_cards Abort true)
                  Sample.ann "list" ["ignored"] (or_intror eq_refl)
                  Sample.no_cards eq_refl)).
Defined.

Lemma listing_is_read_only_witness :
  count is_ls
    (trace_of (run (P := plain) (Some "ls") ["ls"] Sample.ann) Sample.offline)
  = 1.
Proof.
  exact (proj1 (listing_is_read_only (P := plain) Sample.offline Sample.ann
                  "ls" [] (or_introl eq_refl))).
Defined.

(** ** [main]: help, and what it does with a throw *)

Section Main.

Context {P : Presentation}.
Variables (w : World) (sh : Session).

(** What [main] makes of a run that threw. *)
Lemma main_of_thrown (argv_ : list string) (e : jsError) (s : State) :
  truthy (nth_error argv_ 0) = true ->
  exec (run (nth_error argv_ 0) argv_ sh) w = (Thrown e, s) ->
  exec (main false argv_ sh) w
  = (Done tt,
     {| log := Exit 1 :: ConsoleError (thrown_report e) :: log s;
        ls_calls := ls_calls s;
        clock_reads := clock_reads s |}).
Proof.
  intros Htruthy Hrun. unfold exec, main. cbv zeta. rewrite Htruthy.
  cbn [orb negb catch MonadExc_Proc]. unfold exec in Hrun. rewrite Hrun.
  unfold thrown_report. destruct (err_userError e); reflexivity.
Qed.

(** X9.  With the help flag, or without a subcommand (none, or the empty
    string), [main] prints the usage text and exits with code 0: nothing
    is fetched, asked or changed. *)
Theorem help_or_no_subcommand (help_flag : bool) (argv_ : list string) :
  help_flag = true \/ truthy (nth_error argv_ 0) = false ->
  trace_of (main help_flag argv_ sh) w = [Help; Exit 0]
  /\ outcome_of (main help_flag argv_ sh) w = Done tt.
Proof.
  intros Hhelp.
  assert (Htest : help_flag || negb (truthy (nth_error argv_ 0)) = true).
  { destruct Hhelp as [-> | ->]; [reflexivity | apply orb_true_r]. }
  unfold trace_of, outcome_of, exec, main. cbv zeta. rewrite Htest.
  split; reflexivity.
Qed.

(** X10.  Whatever [run] throws is caught by [main]: it is printed as an
    error (the message of a user error, "Unknown error" and the stack of
    anything else) after what the run had already done, and followed by an
    exit with code 1. *)
Theorem main_catches_what_run_throws (help_flag : bool)
    (argv_ : list string) (e : jsError) (s : State) :
  help_flag = false ->
  truthy (nth_error argv_ 0) = true ->
  exec (run (nth_error argv_ 0) argv_ sh) w = (Thrown e, s) ->
  trace_of (main help_flag argv_ sh) w
  = (trace s ++ [ConsoleError (thrown_report e); Exit 1])%list.
Proof.
  intros -> Htruthy Hrun. unfold trace_of.
  rewrite (main_of_thrown argv_ e s Htruthy Hrun).
  unfold trace. cbn [snd log rev]. rewrite <- app_assoc. reflexivity.
Qed.

End Main.

Lemma help_or_no_subcommand_witness :
  truthy (nth_error [""; "a"] 0) = false
  /\ trace_of (main (P := plain) false [""; "a"] Sample.ann) Sample.offline
     = [Help; Exit 0].
Proof.
  split; [reflexivity |].
  exact (proj1 (help_or_no_subcommand (P := plain) Sample.offline Sample.ann
                  false [""; "a"] (or_intror eq_refl))).
Defined.

Lemma main_catches_what_run_throws_witness :
  trace_of (main (P := plain) false ["rm"; "a"] Sample.ann)
           (Sample.read_only Sample.two_cards Abort)
  = [ ApiLs;
      PromptBool "Are you sure that you want to remove this card?" None;
      ApiRm "a";
      ConsoleError "> Error! Card declined";
      Exit 1 ].
Proof.
  exact (main_catches_what_run_throws (P := plain)
               (Sample.read_only Sample.two_cards Abort) Sample.ann
               false ["rm"; "a"]
               (ApiError "Card declined" true)
               {| log := [ ApiRm "a";
                           PromptBool
                             "Are you sure that you want to remove this card?"
                             None;
                           ApiLs ];
                  ls_calls := 1;
                  clock_reads := 3 |}
               eq_refl eq_refl eq_refl).
Defined.

(** ** After the confirmation *)

Lemma resolving_truthy (sub : string) (args : list string) :
  In sub resolving -> truthy (nth_error (sub :: args) 0) = true.
Proof. intros Hsub. each_resolving Hsub; reflexivity. Qed.

(** A card with the id of a listed card is found. *)
Lemma listed_id_is_found (c : CardCollection) (i : nat) (picked : Card.t) :
  nth_error (cards c) i = Some picked ->
  exists card,
    find (id_is (Card.id picked)) (cards c) = Some card
    /\ Card.id card = Card.id picked.
Proof.
  intros Hnth. apply nth_error_In in Hnth.
  destruct (find (id_is (Card.id picked)) (cards c)) as [card |] eqn:Hfind.
  - exists card. split; [reflexivity |].
    apply find_some in Hfind. destruct Hfind as [_ Hid].
    unfold id_is in Hid. apply String.eqb_eq. exact Hid.
  - pose proof (find_none _ _ Hfind picked Hnth) as Hnot.
    unfold id_is in Hnot. rewrite String.eqb_refl in Hnot. discriminate.
Qed.

(** The confirmation block when the API refuses the request. *)
Lemma confirm_refused {P : Presentation} (w : World) (sh : Session)
    (c : CardCollection) (sub cardId : string) (s : State) (e : jsError) :
  In sub resolving ->
  promptBool_answer w = true ->
  mutation_reply w sub cardId = Rejected e ->
  confirm sub cardId c sh w s
  = (Thrown e,
     {| log := mutation sub cardId :: confirmation sub :: log s;
        ls_calls := ls_calls s;
        clock_reads := S (clock_reads s) |}).
Proof.
  intros Hsub Hyes Hreply. unfold mutation_reply in Hreply.
  each_resolving Hsub; cbn [String.eqb Ascii.eqb Bool.eqb] in Hreply;
    unfold confirm; cbn [String.eqb Ascii.eqb Bool.eqb].
  - exact (set_default_rejected w c cardId s e Hyes Hreply).
  - exact (rm_rejected w sh c cardId s e Hyes Hreply).
  - exact (rm_rejected w sh c cardId s e Hyes Hreply).
Qed.

Section Confirmed.

Context {P : Presentation}.
Variables (w : World) (sh : Session) (c : CardCollection).
Variables (sub : string) (args : list string) (cardId : string).

Hypothesis resolves : In sub resolving.
Hypothesis at_most_one : length args <= 1.
Hypothesis fetched : ls_reply w 0 = Resolved c.
Hypothesis some_cards : cards c <> [].
Hypothesis target : resolution args w c = Some cardId.
Hypothesis target_truthy : cardId <> "".
Hypothesis confirmed : promptBool_answer w = true.

(** The run, once the confirmation block has been evaluated. *)
Lemma confirmed_result (result : completion flow * State) :
  confirm sub cardId c sh w (resolved sub sh args w c) = result ->
  exec (run (Some sub) (sub :: args) sh) w =
  match result with
  | (Done f, s') => after_switch f w s'
  | (Thrown e, s') => (Thrown e, s')
  end.
Proof.
  intros <-.
  rewrite (path_reaches_confirmation w sh sub args c cardId resolves
             at_most_one fetched some_cards target target_truthy).
  reflexivity.
Qed.

(** X11.  When the API refuses the mutating request, the error is printed
    and the process exits with code 1: no success is reported and the
    client is not closed. *)
Theorem refused_mutation_is_reported (e : jsError) :
  mutation_reply w sub cardId = Rejected e ->
  trace_of (main false (sub :: args) sh) w
  = (asked sub sh args w c
     ++ [mutation sub cardId; ConsoleError (thrown_report e); Exit 1])%list.
Proof.
  intros Hreply.
  pose proof (confirmed_result _
                (confirm_refused w sh c sub cardId
                   (resolved sub sh args w c) e resolves confirmed Hreply))
    as Hrun.
  pose proof (main_of_thrown w sh (sub :: args) e _
                (resolving_truthy sub args resolves) Hrun) as Hmain.
  cbn [log ls_calls clock_reads] in Hmain.
  exact (trace_from_resolved w sh c sub
           [Exit 1; ConsoleError (thrown_report e); mutation sub cardId]
           args _ _ _ _ Hmain).
Qed.

End Confirmed.

(** The run of a confirmed [set-default] that the API accepts. *)
Lemma path_set_default_done {P : Presentation} (w : World)
    (sh : Session) (c : CardCollection) (args : list string)
    (cardId : string) (card : Card.t) :
  length args <= 1 ->
  ls_reply w 0 = Resolved c ->
  resolution args w c = Some cardId ->
  cardId <> "" ->
  find (id_is cardId) (cards c) = Some card ->
  promptBool_answer w = true ->
  setDefault_reply w cardId = Resolved tt ->
  let p := run (Some "set-default") ("set-default" :: args) sh in
  trace_of p w
  = (asked "set-default" sh args w c
     ++ [ ApiSetDefault cardId;
          ConsoleLog
            (success (Card.brand card ++ " ending in " ++ Card.last4 card
                      ++ " is now the default "
                      ++ elapsed_at w
                           (2 + length (resolution_trace "set-default" sh
                                          args w c))));
          ApiClose ])%list
  /\ outcome_of p w = Done tt
  /\ exit_status (trace_of p w) = None.
Proof.
  intros Hone Hls Htarget Hid Hfind Hyes Hreply p. subst p.
  assert (Hsub : In "set-default" resolving) by (left; reflexivity).
  assert (Hsome : cards c <> []).
  { intros Hnil. rewrite Hnil in Hfind. discriminate Hfind. }
  pose proof (confirmed_result w sh c "set-default" args cardId Hsub Hone
                Hls Hsome Htarget Hid _
                (set_default_done w c cardId
                   (resolved "set-default" sh args w c) card
                   Hyes Hreply Hfind)) as Hrun.
  unfold after_switch, creditCards_close, emit in Hrun.
  cbn [log ls_calls clock_reads] in Hrun.
  assert (Htrace : trace_of (run (Some "set-default")
                                 ("set-default" :: args) sh) w
                   = (asked "set-default" sh args w c
                      ++ rev [ApiClose;
                              ConsoleLog
                                (success
                                   (Card.brand card ++ " ending in "
                                    ++ Card.last4 card
                                    ++ " is now the default "
                                    ++ elapsed_at w
                                         (clock_reads
                                            (resolved "set-default" sh args
                                                      w c))));
                              ApiSetDefault cardId])%list).
  { exact (trace_from_resolved w sh c "set-default"
             [ApiClose;
              ConsoleLog
                (success
                   (Card.brand card ++ " ending in " ++ Card.last4 card
                    ++ " is now the default "
                    ++ elapsed_at w
                         (clock_reads
                            (resolved "set-default" sh args w c))));
              ApiSetDefault cardId]
             args _ _ _ _ Hrun). }
  split; [exact Htrace |].
  split; [unfold outcome_of; rewrite Hrun; reflexivity |].
  rewrite Htrace. unfold asked. destruct args; reflexivity.
Qed.

(** X12.  A confirmed [set-default] for a listed card, when the API
    accepts it: one request with that id, then a success line that names
    the brand and the last four digits of the card, then the client is
    closed; the process is not asked to exit. *)
Theorem set_default_reports_the_card {P : Presentation} (w : World)
    (sh : Session) (c : CardCollection) (args : list string)
    (cardId : string) (card : Card.t) :
  length args <= 1 ->
  ls_reply w 0 = Resolved c ->
  resolution args w c = Some cardId ->
  cardId <> "" ->
  find (id_is cardId) (cards c) = Some card ->
  promptBool_answer w = true ->
  setDefault_reply w cardId = Resolved tt ->
  let p := run (Some "set-default") ("set-default" :: args) sh in
  trace_of p w
  = (asked "set-default" sh args w c
     ++ [ ApiSetDefault cardId;
          ConsoleLog
            (success (Card.brand card ++ " ending in " ++ Card.last4 card
                      ++ " is now the default "
                      ++ elapsed_at w
                           (2 + length (resolution_trace "set-default" sh
                                          args w c))));
          ApiClose ])%list
  /\ outcome_of p w = Done tt
  /\ count is_mutation (trace_of p w) = 1
  /\ count is_close (trace_of p w) = 1
  /\ exit_status (trace_of p w) = None.
Proof.
  intros Hone Hls Htarget Hid Hfind Hyes Hreply p. subst p.
  destruct (path_set_default_done w sh c args cardId card Hone Hls Htarget
              Hid Hfind Hyes Hreply) as (Htrace & Hdone & Hexit).
  split; [exact Htrace |]. split; [exact Hdone |].
  rewrite Htrace. unfold asked.
  destruct args; repeat split.
Qed.

Lemma set_default_reports_the_card_witness :
  trace_of (run (P := plain) (Some "set-default") ["set-default"; "b"]
                Sample.ann)
           (Sample.account Sample.two_cards Sample.two_cards Abort true)
  = [ ApiLs;
      PromptBool "Are you sure that you to set this card as the default?"
                 (Some nl);
      ApiSetDefault "b";
      ConsoleLog "> Success! MasterCard ending in 2222 is now the default [1ms]";
      ApiClose ].
Proof.
  assert (Hone : length ["b"] <= 1) by (simpl; lia).
  assert (Hid : "b" <> "") by discriminate.
  exact (proj1 (set_default_reports_the_card (P := plain)
                  (Sample.account Sample.two_cards Sample.two_cards Abort true)
                  Sample.ann Sample.two_cards ["b"] "b" Sample.mastercard
                  Hone eq_refl eq_refl Hid eq_refl eq_refl eq_refl)).
Defined.

(** X13.  A card picked at the list prompt is always found again: when the
    pick is confirmed and the API accepts it, [set-default] reports a card
    with the picked id and does not throw. *)
Theorem picked_card_is_reported {P : Presentation} (w : World)
    (sh : Session) (c : CardCollection) (i : nat) (picked : Card.t) :
  ls_reply w 0 = Resolved c ->
  listInput_answer w = Pick i ->
  nth_error (cards c) i = Some picked ->
  Card.id picked <> "" ->
  promptBool_answer w = true ->
  setDefault_reply w (Card.id picked) = Resolved tt ->
  let p := run (Some "set-default") ["set-default"] sh in
  outcome_of p w = Done tt
  /\ exists card,
       In card (cards c)
       /\ Card.id card = Card.id picked
       /\ trace_of p w
          = (asked "set-default" sh [] w c
             ++ [ ApiSetDefault (Card.id picked);
                  ConsoleLog
                    (success (Card.brand card ++ " ending in "
                              ++ Card.last4 card ++ " is now the default "
                              ++ elapsed_at w 3));
                  ApiClose ])%list.
Proof.
  intros Hls Hpick Hnth Hid Hyes Hreply p. subst p.
  destruct (listed_id_is_found c i picked Hnth) as (card & Hfind & Hsame).
  assert (Htarget : resolution [] w c = Some (Card.id picked)).
  { unfold resolution. cbn [nth_error]. rewrite Hpick, Hnth. reflexivity. }
  assert (Hzero : length (@nil string) <= 1) by (simpl; lia).
  pose proof (path_set_default_done w sh c [] (Card.id picked) card
                Hzero Hls Htarget Hid Hfind Hyes Hreply)
    as (Htrace & Hdone & _).
  split; [exact Hdone |].
  exists card. split; [exact (proj1 (find_some _ _ Hfind)) |].
  split; [exact Hsame | exact Htrace].
Qed.

Lemma picked_card_is_reported_witness :
  Card.id Sample.mastercard <> ""
  /\ outcome_of (run (P := plain) (Some "set-default") ["set-default"]
                     Sample.ann)
                (Sample.account Sample.two_cards Sample.two_cards
                                (Pick 1) true)
     = Done tt.
Proof.
  assert (Hid : Card.id Sample.mastercard <> "") by discriminate.
  split; [exact Hid |].
  exact (proj1 (picked_card_is_reported (P := plain)
                  (Sample.account Sample.two_cards Sample.two_cards
                                  (Pick 1) true)
                  Sample.ann Sample.two_cards 1 Sample.mastercard
                  eq_refl eq_refl eq_refl Hid eq_refl eq_refl)).
Defined.

Lemma refused_mutation_is_reported_witness :
  trace_of (main (P := plain) false ["set-default"; "a"] Sample.ann)
           (Sample.read_only Sample.two_cards Abort)
  = [ ApiLs;
      PromptBool "Are you sure that you to set this card as the default?"
                 (Some nl);
      ApiSetDefault "a";
      ConsoleError "> Error! Card declined";
      Exit 1 ].
Proof.
  assert (Hsub : In "set-default" resolving) by (left; reflexivity).
  assert (Hone : length ["a"] <= 1) by (simpl; lia).
  assert (Hc : cards Sample.two_cards <> []) by discriminate.
  assert (Hid : "a" <> "") by discriminate.
  exact (refused_mutation_is_reported (P := plain)
           (Sample.read_only Sample.two_cards Abort) Sample.ann
           Sample.two_cards "set-default" ["a"] "a"
           Hsub Hone eq_refl Hc eq_refl Hid eq_refl
           (ApiError "Card declined" true) eq_refl).
Defined.

(** ** Removing the default card when the second fetch goes wrong *)

Section Refetch.

Context {P : Presentation}.
Variables (w : World) (sh : Session) (c : CardCollection).
Variables (sub : string) (args : list string).
Variables (cardId : string) (deleted : Card.t).

Hypothesis removing : sub = "rm" \/ sub = "remove".
Hypothesis at_most_one : length args <= 1.
Hypothesis fetched : ls_reply w 0 = Resolved c.
Hypothesis target : resolution args w c = Some cardId.
Hypothesis target_truthy : cardId <> "".
Hypothesis listed : find (id_is cardId) (cards c) = Some deleted.
Hypothesis confirmed : promptBool_answer w = true.
Hypothesis removed : rm_reply w cardId = Resolved tt.
Hypothesis was_default : defaultCardId c = Some cardId.
Hypothesis others_remain : others cardId c <> [].

(** What [main] logs when the block throws after the second fetch. *)
Lemma refetch_throw (e : jsError) :
  confirm_rm cardId c sh w (resolved sub sh args w c)
  = (Thrown e,
     {| log := ApiLs :: ApiRm cardId :: confirmation "rm"
               :: log (resolved sub sh args w c);
        ls_calls := S (ls_calls (resolved sub sh args w c));
        clock_reads := S (clock_reads (resolved sub sh args w c)) |}) ->
  trace_of (main false (sub :: args) sh) w
  = (asked sub sh args w c
     ++ [ApiRm cardId; ApiLs; ConsoleError (thrown_report e); Exit 1])%list.
Proof.
  intros Hblock.
  assert (Hres : In sub resolving)
    by (destruct removing as [-> | ->]; simpl; tauto).
  assert (Hconf : confirmation "rm" = confirmation sub)
    by (destruct removing as [-> | ->]; reflexivity).
  pose proof (removal_result w sh c sub args cardId deleted removing
                at_most_one fetched target target_truthy listed _ Hblock)
    as Hrun.
  pose proof (main_of_thrown w sh (sub :: args) e _
                (resolving_truthy sub args Hres) Hrun) as Hmain.
  cbn [log ls_calls clock_reads] in Hmain. rewrite Hconf in Hmain.
  exact (trace_from_resolved w sh c sub
           [Exit 1; ConsoleError (thrown_report e); ApiLs; ApiRm cardId]
           args _ _ _ _ Hmain).
Qed.

(** X14.  When the default card has been removed and the fetch that should
    find the new default fails, the failure is printed and the process
    exits with code 1: the card is gone, but its deletion is not
    reported. *)
Theorem failed_refetch_hides_the_deletion (e : jsError) :
  ls_reply w 1 = Rejected e ->
  trace_of (main false (sub :: args) sh) w
  = (asked sub sh args w c
     ++ [ApiRm cardId; ApiLs; ConsoleError (thrown_report e); Exit 1])%list.
Proof.
  intros Hls. apply refetch_throw.
  exact (rm_default_refetch_failed w sh c cardId (resolved sub sh args w c)
           deleted confirmed removed listed e was_default others_remain Hls).
Qed.

(** X15.  When the default card has been removed and the collection
    fetched afterwards lists no card with its [defaultCardId] (it has no
    default, or names a card that is not listed), the handler throws at
    the report: an unknown error is printed and the process exits with
    code 1. *)
Theorem refetch_without_default_is_an_unknown_error (c' : CardCollection) :
  ls_reply w 1 = Resolved c' ->
  default_of c' = None ->
  trace_of (main false (sub :: args) sh) w
  = (asked sub sh args w c
     ++ [ ApiRm cardId;
          ApiLs;
          ConsoleError
            (error ("Unknown error: "
                    ++ err_stack
                         (TypeError
                            "Cannot read property 'brand' of undefined")));
          Exit 1 ])%list.
Proof.
  intros Hls Hnone.
  exact (refetch_throw _
           (rm_default_refetch_without_default w sh c cardId
              (resolved sub sh args w c) deleted confirmed removed listed c'
              was_default others_remain Hls Hnone)).
Qed.

End Refetch.

Lemma failed_refetch_hides_the_deletion_witness :
  trace_of (main (P := plain) false ["rm"; "a"] Sample.ann)
           (Sample.drops_after Sample.two_cards)
  = [ ApiLs;
      PromptBool "Are you sure that you want to remove this card?" None;
      ApiRm "a";
      ApiLs;
      ConsoleError "> Error! Network down";
      Exit 1 ].
Proof.
  assert (Hone : length ["a"] <= 1) by (simpl; lia).
  assert (Hid : "a" <> "") by discriminate.
  assert (Hrest : others "a" Sample.two_cards <> []) by discriminate.
  exact (failed_refetch_hides_the_deletion (P := plain)
           (Sample.drops_after Sample.two_cards) Sample.ann Sample.two_cards
           "rm" ["a"] "a" Sample.visa (or_introl eq_refl) Hone eq_refl
           eq_refl Hid eq_refl eq_refl eq_refl eq_refl Hrest
           (ApiError "Network down" true) eq_refl).
Defined.

Lemma refetch_without_default_is_an_unknown_error_witness :
  default_of Sample.after_removal_no_default = None
  /\ trace_of (main (P := plain) false ["rm"; "a"] Sample.ann)
              (Sample.account Sample.two_cards
                              Sample.after_removal_no_default Abort true)
     = [ ApiLs;
         PromptBool "Are you sure that you want to remove this card?" None;
         ApiRm "a";
         ApiLs;
         ConsoleError
           "> Error! Unknown error: Cannot read property 'brand' of undefined";
         Exit 1 ].
Proof.
  assert (Hone : length ["a"] <= 1) by (simpl; lia).
  assert (Hid : "a" <> "") by discriminate.
  assert (Hrest : others "a" Sample.two_cards <> []) by discriminate.
  split; [reflexivity |].
  exact (refetch_without_default_is_an_unknown_error (P := plain)
           (Sample.account Sample.two_cards Sample.after_removal_no_default
                           Abort true)
           Sample.ann Sample.two_cards "rm" ["a"] "a" Sample.visa
           (or_introl eq_refl) Hone eq_refl eq_refl Hid eq_refl eq_refl
           eq_refl eq_refl Hrest Sample.after_removal_no_default
           eq_refl eq_refl).
Defined.

(** ** No target, no confirmation, and the [add] case *)

(** X16.  Whenever the target resolution ends without a card id that
    counts as one (the list prompt was left, the argument is the empty
    string, or the picked card has an empty id), the handler prints "No
    changes made", asks no confirmation, makes no mutating request and
    closes the client. *)
Theorem no_target_changes_nothing {P : Presentation} (w : World)
    (sh : Session) (c : CardCollection) (sub : string) (args : list string) :
  In sub resolving ->
  length args <= 1 ->
  ls_reply w 0 = Resolved c ->
  cards c <> [] ->
  truthy (resolution args w c) = false ->
  let t := trace_of (run (Some sub) (sub :: args) sh) w in
  t = (ApiLs :: resolution_trace sub sh args w c
       ++ [ConsoleLog "No changes made"; ApiClose])%list
  /\ count is_confirmation t = 0
  /\ count is_mutation t = 0
  /\ count is_close t = 1.
Proof.
  intros Hsub Hone Hls Hc Hfalsy t. subst t.
  rewrite (path_no_target w sh c sub args Hsub Hone Hls Hc Hfalsy).
  split; [reflexivity |].
  destruct args; each_resolving Hsub; repeat split.
Qed.

Lemma no_target_changes_nothing_witness :
  truthy (resolution []
            (Sample.account Sample.with_nameless Sample.with_nameless
                            (Pick 0) true)
            Sample.with_nameless) = false
  /\ count is_mutation
       (trace_of (run (P := plain) (Some "rm") ["rm"] Sample.ann)
                 (Sample.account Sample.with_nameless Sample.with_nameless
                                 (Pick 0) true))
     = 0.
Proof.
  assert (Hsub : In "rm" resolving) by (right; left; reflexivity).
  assert (Hone : length (@nil string) <= 1) by (simpl; lia).
  assert (Hc : cards Sample.with_nameless <> []) by discriminate.
  split; [reflexivity |].
  exact (proj1 (proj2 (proj2
           (no_target_changes_nothing (P := plain)
              (Sample.account Sample.with_nameless Sample.with_nameless
                              (Pick 0) true)
              Sample.ann Sample.with_nameless "rm" [] Hsub Hone eq_refl Hc
              eq_refl)))).
Defined.

(** X17.  Declining the confirmation of [rm] or [remove] prints "Aborted",
    makes no rm request, closes the client and does not ask the process to
    exit. *)
Theorem declined_rm_is_benign {P : Presentation} (w : World) (sh : Session)
    (c : CardCollection) (sub : string) (args : list string)
    (cardId : string) :
  sub = "rm" \/ sub = "remove" ->
  length args <= 1 ->
  ls_reply w 0 = Resolved c ->
  cards c <> [] ->
  resolution args w c = Some cardId ->
  cardId <> "" ->
  promptBool_answer w = false ->
  let p := run (Some sub) (sub :: args) sh in
  trace_of p w
  = (asked sub sh args w c ++ [ConsoleLog "Aborted"; ApiClose])%list
  /\ outcome_of p w = Done tt
  /\ count is_mutation (trace_of p w) = 0
  /\ exit_status (trace_of p w) = None.
Proof.
  intros Hsub Hone Hls Hc Htarget Hid Hno p. subst p.
  pose proof (declined_rm_aborts w sh c args cardId Hone Hls Hc Htarget Hid
                Hno sub Hsub) as Hrun.
  assert (Htrace : trace_of (run (Some sub) (sub :: args) sh) w
                   = (asked sub sh args w c
                      ++ rev [ApiClose; ConsoleLog "Aborted"])%list).
  { exact (trace_from_resolved w sh c sub [ApiClose; ConsoleLog "Aborted"]
             args _ _ _ _ Hrun). }
  split; [exact Htrace |].
  split; [unfold outcome_of; rewrite Hrun; reflexivity |].
  rewrite Htrace. unfold asked.
  destruct args; destruct Hsub as [-> | ->]; split; reflexivity.
Qed.

Lemma declined_rm_is_benign_witness :
  trace_of (run (P := plain) (Some "remove") ["remove"; "a"] Sample.ann)
           (Sample.account Sample.two_cards Sample.two_cards Abort false)
  = [ ApiLs;
      PromptBool "Are you sure that you want to remove this card?" None;
      ConsoleLog "Aborted";
      ApiClose ].
Proof.
  assert (Hone : length ["a"] <= 1) by (simpl; lia).
  assert (Hc : cards Sample.two_cards <> []) by discriminate.
  assert (Hid : "a" <> "") by discriminate.
  exact (proj1 (declined_rm_is_benign (P := plain)
                  (Sample.account Sample.two_cards Sample.two_cards Abort false)
                  Sample.ann Sample.two_cards "remove" ["a"] "a"
                  (or_intror eq_refl) Hone eq_refl Hc eq_refl Hid eq_refl)).
Defined.

(** X18.  A prompt is only ever shown by a resolving subcommand that was
    given at most one argument and has fetched a collection with at least
    one card. *)
Theorem prompts_need_cards {P : Presentation} (w : World) (sh : Session)
    (sub : string) (args : list string) :
  0 < count is_prompt (trace_of (run (Some sub) (sub :: args) sh) w) ->
  In sub resolving
  /\ length args <= 1
  /\ exists c, ls_reply w 0 = Resolved c /\ cards c <> [].
Proof.
  intros Hprompt.
  assert (Hother :
            ~ In sub resolving ->
            count is_prompt (trace_of (run (Some sub) (sub :: args) sh) w)
            <= 0).
  { intros Hnot. apply costs_count. unfold run. cbn [option_map].
    destruct (handler_of sub) as [[] |] eqn:Hhandler;
      try (unfold_blocks; costs_auto);
      exfalso; apply Hnot; apply handler_of_resolving; tauto. }
  assert (Hsub : In sub resolving).
  { destruct (in_dec string_dec sub resolving) as [Hin | Hnot];
      [exact Hin |]. specialize (Hother Hnot). lia. }
  split; [exact Hsub |].
  destruct (le_lt_dec (length args) 1) as [Hone | Hmany].
  - split; [exact Hone |].
    destruct (ls_reply w 0) as [c | e] eqn:Hls.
    + exists c. split; [reflexivity |]. intros Hnil.
      unfold trace_of in Hprompt.
      rewrite (path_no_cards w sh sub args c Hsub Hone Hls Hnil) in Hprompt.
      cbn in Hprompt. lia.
    + unfold trace_of in Hprompt.
      rewrite (path_fetch_failed w sh sub args e Hsub Hone Hls) in Hprompt.
      cbn in Hprompt. lia.
  - unfold trace_of in Hprompt.
    rewrite (path_too_many_arguments w sh sub args Hsub Hmany) in Hprompt.
    cbn in Hprompt. lia.
Qed.

Lemma prompts_need_cards_witness :
  0 < count is_prompt
        (trace_of (run (P := plain) (Some "rm") ["rm"] Sample.ann)
                  (Sample.account Sample.two_cards Sample.two_cards
                                  (Pick 0) false))
  /\ In "rm" resolving.
Proof.
  assert (Hprompt :
            0 < count is_prompt
                  (trace_of (run (P := plain) (Some "rm") ["rm"] Sample.ann)
                            (Sample.account Sample.two_cards Sample.two_cards
                                            (Pick 0) false)))
    by (vm_compute; lia).
  split; [exact Hprompt |].
  exact (proj1 (prompts_need_cards (P := plain)
                  (Sample.account Sample.two_cards Sample.two_cards
                                  (Pick 0) false)
                  Sample.ann "rm" [] Hprompt)).
Defined.

(** X19.  The [add] case ignores its arguments and hands over to the
    add-card flow without fetching the card list: when the flow succeeds
    the client is closed; when it fails, the error is printed by [main],
    the process exits with code 1 and the client is not closed. *)
Theorem add_hands_over {P : Presentation} (w : World) (sh : Session)
    (args : list string) :
  (addBilling_reply w = Resolved tt ->
   trace_of (main false ("add" :: args) sh) w = [AddBilling; ApiClose])
  /\ (forall e,
        addBilling_reply w = Rejected e ->
        trace_of (main false ("add" :: args) sh) w
        = [AddBilling; ConsoleError (thrown_report e); Exit 1]).
Proof.
  split.
  - intros Hok. unfold_script. cbn. rewrite Hok. reflexivity.
  - intros e Hfail. unfold_script. cbn. rewrite Hfail. cbn.
    unfold thrown_report. destruct (err_userError e); reflexivity.
Qed.

Lemma add_hands_over_witness :
  trace_of (main (P := plain) false ["add"; "ignored"] Sample.ann)
           Sample.offline
  = [AddBilling; ConsoleError "> Error! Network down"; Exit 1].
Proof.
  exact (proj2 (add_hands_over (P := plain) Sample.offline Sample.ann
                  ["ignored"])
               (ApiError "Network down" true) eq_refl).
Defined.

(** ** Which request, for which card *)

Lemma handler_of_set_default (sub : string) :
  handler_of sub = Some HSetDefault -> sub = "set-default".
Proof.
  unfold handler_of.
  repeat match goal with
         | |- context [String.eqb sub ?lit] =>
             destruct (String.eqb_spec sub lit) as [-> | _];
             [intros [=]; reflexivity | ]
         end.
  discriminate.
Qed.

(** X20.  A subcommand only makes the mutating request of its own kind:
    nothing but [rm] and [remove] ever asks the API to remove a card, and
    nothing but [set-default] ever asks it to change the default. *)
Theorem mutations_of_their_own_kind {P : Presentation} (w : World)
    (sh : Session) (sub : string) (argv_ : list string) :
  (sub <> "rm" -> sub <> "remove" ->
   count is_rm (trace_of (run (Some sub) argv_ sh) w) = 0)
  /\ (sub <> "set-default" ->
      count is_setDefault (trace_of (run (Some sub) argv_ sh) w) = 0).
Proof.
  split.
  - intros Hrm Hremove.
    enough (count is_rm (trace_of (run (Some sub) argv_ sh) w) <= 0) by lia.
    apply costs_count. unfold run. cbn [option_map].
    destruct (handler_of sub) as [[] |] eqn:Hhandler;
      try (unfold_blocks; costs_auto).
    destruct (handler_of_remove sub Hhandler); contradiction.
  - intros Hset.
    enough (count is_setDefault (trace_of (run (Some sub) argv_ sh) w) <= 0)
      by lia.
    apply costs_count. unfold run. cbn [option_map].
    destruct (handler_of sub) as [[] |] eqn:Hhandler;
      try (unfold_blocks; costs_auto).
    contradiction (Hset (handler_of_set_default sub Hhandler)).
Qed.

Lemma mutations_of_their_own_kind_witness :
  "set-default" <> "rm"
  /\ count is_rm
       (trace_of (run (P := plain) (Some "set-default")
                      ["set-default"; "a"] Sample.ann)
                 (Sample.account Sample.two_cards Sample.two_cards Abort true))
     = 0.
Proof.
  assert (H1 : "set-default" <> "rm") by discriminate.
  assert (H2 : "set-default" <> "remove") by discriminate.
  split; [exact H1 |].
  exact (proj1 (mutations_of_their_own_kind (P := plain)
                  (Sample.account Sample.two_cards Sample.two_cards Abort true)
                  Sample.ann "set-default" ["set-default"; "a"]) H1 H2).
Defined.

(** X21.  The mutating request of [set-default], [rm] and [remove] always
    names the card id that the target resolution arrived at: the argument
    exactly as it was typed, or the id of the card picked at the prompt. *)
Theorem request_names_the_resolved_id {P : Presentation} (w : World)
    (sh : Session) (c : CardCollection) (sub : string) (args : list string)
    (e : event) :
  In sub resolving ->
  length args <= 1 ->
  ls_reply w 0 = Resolved c ->
  In e (trace_of (run (Some sub) (sub :: args) sh) w) ->
  is_mutation e = true ->
  exists cardId,
    resolution args w c = Some cardId
    /\ e = mutation sub cardId
    /\ (args = [] -> exists card, In card (cards c) /\ Card.id card = cardId).
Proof.
  intros Hsub Hone Hls Hin Hmut.
  destruct (cards c) as [| card0 rest] eqn:Hcards.
  - unfold trace_of in Hin.
    rewrite (path_no_cards w sh sub args c Hsub Hone Hls Hcards) in Hin.
    assert (Hnone : is_mutation e = false).
    { cbn in Hin. destruct Hin as [<- | [<- | [<- | []]]]; reflexivity. }
    rewrite Hnone in Hmut. discriminate.
  - assert (Hsome : cards c <> []) by (rewrite Hcards; discriminate).
    destruct (truthy (resolution args w c)) eqn:Htruthy.
    + destruct (resolution args w c) as [cardId |] eqn:Htarget;
        [| discriminate].
      assert (Hid : cardId <> "") by (intros ->; discriminate).
      exists cardId. split; [reflexivity |].
      split.
      * exact (only_mutation_is_the_target w sh c sub args Hsub Hone Hls
                 Hsome cardId e Htarget Hid Hin Hmut).
      * intros ->. unfold resolution in Htarget. cbn [nth_error] in Htarget.
        destruct (listInput_answer w) as [| i]; [discriminate |].
        destruct (nth_error (cards c) i) as [card |] eqn:Hnth;
          [| discriminate].
        injection Htarget as <-. exists card.
        rewrite <- Hcards. split; [exact (nth_error_In _ _ Hnth) | reflexivity].
    + rewrite (path_no_target w sh c sub args Hsub Hone Hls Hsome Htruthy)
        in Hin.
      assert (Hnone : is_mutation e = false).
      { apply (count_zero_In is_mutation _ e) in Hin; [exact Hin |].
        destruct args; each_resolving Hsub; reflexivity. }
      rewrite Hnone in Hmut. discriminate.
Qed.

Lemma request_names_the_resolved_id_witness :
  exists cardId,
    resolution ["  a "]
      (Sample.account Sample.two_cards Sample.two_cards Abort true)
      Sample.two_cards = Some cardId
    /\ ApiRm "  a " = mutation "rm" cardId.
Proof.
  assert (Hsub : In "rm" resolving) by (right; left; reflexivity).
  assert (Hone : length ["  a "] <= 1) by (simpl; lia).
  assert (Hin : In (ApiRm "  a ")
                   (trace_of (run (P := plain) (Some "rm") ["rm"; "  a "]
                                  Sample.ann)
                             (Sample.account Sample.two_cards
                                             Sample.two_cards Abort true)))
    by (right; right; left; reflexivity).
  destruct (request_names_the_resolved_id (P := plain)
              (Sample.account Sample.two_cards Sample.two_cards Abort true)
              Sample.ann Sample.two_cards "rm" ["  a "] (ApiRm "  a ")
              Hsub Hone eq_refl Hin eq_refl)
    as (cardId & Htarget & Heq & _).
  exists cardId. split; [exact Htarget | exact Heq].
Defined.

(** X22.  What the list shows for a card is what the list prompt shows
    for it, behind a dash and followed by the address. *)
Theorem list_entry_extends_prompt_label {P : Presentation}
    (c : CardCollection) :
  Forall2
    (fun card choice =>
       ls_card_text c card
       = chalk_gray "-" ++ " " ++ Choice.name choice ++ nl
         ++ indent (ls_address card) 2)
    (cards c) (buildInquirerChoices c).
Proof.
  unfold buildInquirerChoices.
  induction (cards c) as [| card rest IH]; cbn [map]; constructor;
    [| exact IH].
  unfold ls_card_text. cbv zeta. cbn [Choice.name String.concat].
  rewrite !string_app_assoc. reflexivity.
Qed.
